(** * Payme merchant endpoint (src/server.js): transaction state machine

    A shallow embedding of the merchant API handlers of [src/server.js]
    and of the PostgreSQL helpers they call, followed by the properties
    of the settlement protocol that the handlers satisfy.

    Modelling conventions.
    - The two SQL tables are finite maps keyed by their primary key
      ([donations.id], [transactions.paycom_id]); a row holds the other
      columns.  Integer columns are read back as the numbers that were
      written.
    - [Date.now()] is an oracle: the world carries the sequence of its
      future readings and the number of readings made so far.  Nothing
      is assumed about the readings unless a theorem says so.
    - A handler is a computation in the state monad over the world and
      returns the JSON reply it sends ([ok] / [fail]).  Each handler runs
      to completion before the next call starts.
    - Calls are well typed: account and transaction ids are strings,
      amounts, reasons and times are integers; [from], [to] and [reason]
      may be absent. *)

From stdpp Require Import gmap strings list fin_maps sorting.
From Stdlib Require Import ZArith Lia.

Local Open Scope Z_scope.

(* ------------------------- Configuration ------------------------- *)

Definition ACCOUNT_FIELD : string := "donation_id".

Definition TRANSACTION_TTL_MS : Z := 12 * 60 * 60 * 1000.

(* ----------------------- Utility helpers ------------------------- *)

Record Message := { uz : string; ru : string; en : string }.

Definition msg (text : string) : Message :=
  {| uz := text; ru := text; en := text |}.

Record RpcError := { code : Z; message : Message; data : option string }.

Module ERR.
Definition AUTH : RpcError :=
  {| code := -32504; message := msg "Huquq yetarli emas"; data := None |}.
Definition AMOUNT : RpcError :=
  {| code := -31001; message := msg "Noto‘g‘ri summa"; data := Some "amount"%string |}.
Definition NOT_FOUND : RpcError :=
  {| code := -31003; message := msg "Tranzaksiya topilmadi"; data := Some "id"%string |}.
Definition CANNOT_PERFORM : RpcError :=
  {| code := -31008; message := msg "Amalni bajarish mumkin emas"; data := None |}.
Definition ACCOUNT : RpcError :=
  {| code := -31050; message := msg "Noto‘g‘ri hisob"; data := Some "account"%string |}.
Definition METHOD : RpcError :=
  {| code := -32601; message := msg "Metod topilmadi"; data := None |}.
(* the literal built in the catch clause of merchantHandler *)
Definition INTERNAL : RpcError :=
  {| code := -32400; message := msg "Server xatosi"; data := None |}.
End ERR.

(* --------------------------- DB schema --------------------------- *)

(** A row of table [donations], without its key [id]. *)
Module Donations.
Record row := { amount : Z; state : Z; created_at : Z }.

Definition set_state (s : Z) (r : row) : row :=
  {| amount := amount r; state := s; created_at := created_at r |}.
End Donations.

(** A row of table [transactions], without its key [paycom_id]. *)
Module Transactions.
Record row := {
  donation_id : string;
  amount : Z;
  state : Z;
  create_time : Z;
  perform_time : Z;
  cancel_time : Z;
  reason : option Z
}.
End Transactions.

(** The object [getTransaction] builds and the handlers mutate. *)
Module Tx.
Record t := {
  paycomTxId : string;
  account : string;
  amount : Z;
  state : Z;
  create_time : Z;
  perform_time : Z;
  cancel_time : Z;
  reason : option Z
}.

(* tx.state = s *)
Definition set_state (s : Z) (tx : t) : t :=
  {| paycomTxId := paycomTxId tx; account := account tx; amount := amount tx;
     state := s; create_time := create_time tx;
     perform_time := perform_time tx; cancel_time := cancel_time tx;
     reason := reason tx |}.

(* tx.perform_time = v *)
Definition set_perform_time (v : Z) (tx : t) : t :=
  {| paycomTxId := paycomTxId tx; account := account tx; amount := amount tx;
     state := state tx; create_time := create_time tx;
     perform_time := v; cancel_time := cancel_time tx;
     reason := reason tx |}.

(* tx.cancel_time = v *)
Definition set_cancel_time (v : Z) (tx : t) : t :=
  {| paycomTxId := paycomTxId tx; account := account tx; amount := amount tx;
     state := state tx; create_time := create_time tx;
     perform_time := perform_time tx; cancel_time := v;
     reason := reason tx |}.

(* tx.reason = v *)
Definition set_reason (v : option Z) (tx : t) : t :=
  {| paycomTxId := paycomTxId tx; account := account tx; amount := amount tx;
     state := state tx; create_time := create_time tx;
     perform_time := perform_time tx; cancel_time := cancel_time tx;
     reason := v |}.
End Tx.

(** The payload [txResponse] sends back. *)
Module Snapshot.
Record t := {
  transaction : string;
  account : list (string * string);
  create_time : Z;
  perform_time : Z;
  cancel_time : Z;
  amount : Z;
  state : Z;
  reason : option Z
}.
End Snapshot.

(* ------------------------- World and monad ----------------------- *)

Record World := {
  donations : gmap string Donations.row;
  transactions : gmap string Transactions.row;
  clock : nat → Z;     (* the n-th reading of Date.now() *)
  reads : nat          (* readings made so far *)
}.

Definition M (A : Type) : Type := World → A * World.

Global Instance M_ret : MRet M := λ A a w, (a, w).
Global Instance M_bind : MBind M := λ A B k m w, let (a, w') := m w in k a w'.

Definition with_donations (d : gmap string Donations.row) (w : World) : World :=
  {| donations := d; transactions := transactions w;
     clock := clock w; reads := reads w |}.

Definition with_transactions (t : gmap string Transactions.row) (w : World) : World :=
  {| donations := donations w; transactions := t;
     clock := clock w; reads := reads w |}.

(* a query that only reads the tables / a statement that changes them *)
Definition reading {A} (f : World → A) : M A := λ w, (f w, w).
Definition writing (f : World → World) : M unit := λ w, (tt, f w).

(* const now = () => Date.now(); *)
Definition now : M Z := λ w,
  (clock w (reads w),
   {| donations := donations w; transactions := transactions w;
      clock := clock w; reads := S (reads w) |}).

(* --------------------------- DB helpers -------------------------- *)

Definition getDonation (donationId : string) : M (option Donations.row) :=
  reading (λ w, donations w !! donationId).

(** [created_at] is the column default, the database server's own
    clock at insertion. *)
Definition createDonation (donationId : string) (amount created_at : Z)
  : M (option Donations.row) :=
  _ ← writing (λ w,
        match donations w !! donationId with
        | Some _ => w                                  (* ON CONFLICT DO NOTHING *)
        | None =>
            with_donations
              (<[donationId := {| Donations.amount := amount;
                                  Donations.state := 0;
                                  Donations.created_at := created_at |}]>
                 (donations w)) w
        end);
  getDonation donationId.

Definition row_of_tx (tx : Tx.t) : Transactions.row :=
  {| Transactions.donation_id := Tx.account tx;
     Transactions.amount := Tx.amount tx;
     Transactions.state := Tx.state tx;
     Transactions.create_time := Tx.create_time tx;
     Transactions.perform_time := Tx.perform_time tx;
     Transactions.cancel_time := Tx.cancel_time tx;
     Transactions.reason := Tx.reason tx |}.

(* ON CONFLICT (paycom_id) DO UPDATE SET state, perform_time, cancel_time, reason *)
Definition do_update (old : Transactions.row) (tx : Tx.t) : Transactions.row :=
  {| Transactions.donation_id := Transactions.donation_id old;
     Transactions.amount := Transactions.amount old;
     Transactions.state := Tx.state tx;
     Transactions.create_time := Transactions.create_time old;
     Transactions.perform_time := Tx.perform_time tx;
     Transactions.cancel_time := Tx.cancel_time tx;
     Transactions.reason := Tx.reason tx |}.

Definition saveTransaction (tx : Tx.t) : M unit :=
  writing (λ w,
    with_transactions
      (match transactions w !! Tx.paycomTxId tx with
       | Some old => <[Tx.paycomTxId tx := do_update old tx]> (transactions w)
       | None => <[Tx.paycomTxId tx := row_of_tx tx]> (transactions w)
       end) w).

Definition tx_of_row (paycom_id : string) (r : Transactions.row) : Tx.t :=
  {| Tx.paycomTxId := paycom_id;
     Tx.account := Transactions.donation_id r;
     Tx.amount := Transactions.amount r;
     Tx.state := Transactions.state r;
     Tx.create_time := Transactions.create_time r;
     Tx.perform_time := Transactions.perform_time r;
     Tx.cancel_time := Transactions.cancel_time r;
     Tx.reason := Transactions.reason r |}.

Definition getTransaction (paycomTxId : string) : M (option Tx.t) :=
  reading (λ w, tx_of_row paycomTxId <$> transactions w !! paycomTxId).

Definition setDonationState (donationId : string) (state : Z) : M unit :=
  writing (λ w,
    with_donations (alter (Donations.set_state state) donationId (donations w)) w).

(** ORDER BY create_time ASC *)
Definition create_time_le (a b : Tx.t) : Prop := Tx.create_time a ≤ Tx.create_time b.

Global Instance create_time_le_dec a b : Decision (create_time_le a b) :=
  decide (Tx.create_time a ≤ Tx.create_time b).

(* WHERE create_time >= $1 AND create_time <= $2 *)
Definition in_range (lo hi : Z) (tx : Tx.t) : Prop :=
  lo ≤ Tx.create_time tx ∧ Tx.create_time tx ≤ hi.

Global Instance in_range_dec lo hi tx : Decision (in_range lo hi tx) :=
  decide (lo ≤ Tx.create_time tx ∧ Tx.create_time tx ≤ hi).

(* x || d, for a number that may be absent *)
Definition or_default (x : option Z) (d : Z) : Z :=
  match x with
  | Some v => if v =? 0 then d else v
  | None => d
  end.

(* x || now(): the clock is read only when x is falsy *)
Definition or_now (x : option Z) : M Z :=
  match x with
  | Some v => if v =? 0 then now else mret v
  | None => now
  end.

Definition select_transactions (lo hi : Z) (t : gmap string Transactions.row) : list Tx.t :=
  merge_sort create_time_le
    (filter (in_range lo hi)
       ((λ kr, tx_of_row kr.1 kr.2) <$> map_to_list t)).

Definition listTransactions (from to : option Z) : M (list Tx.t) :=
  let lo := or_default from 0 in
  hi ← or_now to;
  reading (λ w, select_transactions lo hi (transactions w)).

(* ------------------------- JSON-RPC helpers ---------------------- *)

Definition txResponse (tx : Tx.t) : Snapshot.t :=
  {| Snapshot.transaction := Tx.paycomTxId tx;
     Snapshot.account := [(ACCOUNT_FIELD, Tx.account tx)];
     Snapshot.create_time := Tx.create_time tx;
     Snapshot.perform_time := Tx.perform_time tx;
     Snapshot.cancel_time := Tx.cancel_time tx;
     Snapshot.amount := Tx.amount tx;
     Snapshot.state := Tx.state tx;
     Snapshot.reason := Tx.reason tx |}.

Definition isExpired (tx : Tx.t) : M bool :=
  t ← now; mret (Tx.create_time tx + TRANSACTION_TTL_MS <? t).

(** Every caller passes a transaction it has just found, so the
    [!tx] half of the guard never fires and the argument is not optional. *)
Definition autoCancelExpired (tx : Tx.t) : M Tx.t :=
  if negb (Tx.state tx =? 1) then mret tx
  else
    let tx := Tx.set_state (-1) tx in
    t ← now;
    let tx := Tx.set_cancel_time t tx in
    let tx := Tx.set_reason (Some 4) tx in
    _ ← saveTransaction tx;
    mret tx.

(* if (isExpired(tx) && tx.state === 1) tx = await autoCancelExpired(tx); *)
Definition expire (tx : Tx.t) : M Tx.t :=
  expired ← isExpired tx;
  if expired && (Tx.state tx =? 1) then autoCancelExpired tx else mret tx.

(* ----------------------- Merchant API replies -------------------- *)

Inductive Result :=
  | Allow (allow : bool)
  | Transaction (snapshot : Snapshot.t)
  | Statement (transactions : list Snapshot.t).

Inductive Reply :=
  | ok (id : Z) (result : Result)
  | fail (id : Z) (error : RpcError).

(* ------------------- Merchant method handlers -------------------- *)

Definition handleCheckPerform (id : Z) (donationId : string) (amount : Z) : M Reply :=
  donation ← getDonation donationId;
  match donation with
  | None => mret (fail id ERR.ACCOUNT)
  | Some donation =>
      if negb (Donations.amount donation =? amount) then mret (fail id ERR.AMOUNT)
      else mret (ok id (Allow true))
  end.

Definition handleCreate (id : Z) (donationId : string) (amount : Z)
    (paycomTxId : string) : M Reply :=
  donation ← getDonation donationId;
  match donation with
  | None => mret (fail id ERR.ACCOUNT)
  | Some donation =>
      if negb (Donations.amount donation =? amount) then mret (fail id ERR.AMOUNT)
      else if Donations.state donation =? 2 then mret (fail id ERR.CANNOT_PERFORM)
      else
        tx ← getTransaction paycomTxId;
        match tx with
        | Some tx =>
            if String.eqb (Tx.account tx) donationId && (Tx.amount tx =? amount)
            then tx ← expire tx; mret (ok id (Transaction (txResponse tx)))
            else mret (fail id ERR.CANNOT_PERFORM)
        | None =>
            t ← now;
            let tx := {| Tx.paycomTxId := paycomTxId; Tx.account := donationId;
                         Tx.amount := amount; Tx.state := 1; Tx.create_time := t;
                         Tx.perform_time := 0; Tx.cancel_time := 0;
                         Tx.reason := None |} in
            _ ← saveTransaction tx;
            _ ← setDonationState donationId 1;
            mret (ok id (Transaction (txResponse tx)))
        end
  end.

Definition handlePerform (id : Z) (paycomTxId : string) : M Reply :=
  tx ← getTransaction paycomTxId;
  match tx with
  | None => mret (fail id ERR.NOT_FOUND)
  | Some tx =>
      tx ← expire tx;
      if (Tx.state tx =? -1) || (Tx.state tx =? -2) then mret (fail id ERR.CANNOT_PERFORM)
      else if Tx.state tx =? 2 then mret (ok id (Transaction (txResponse tx)))
      else
        let tx := Tx.set_state 2 tx in
        t ← now;
        let tx := Tx.set_perform_time t tx in
        _ ← saveTransaction tx;
        _ ← setDonationState (Tx.account tx) 2;
        mret (ok id (Transaction (txResponse tx)))
  end.

Definition handleCancel (id : Z) (paycomTxId : string) (reason : Z) : M Reply :=
  tx ← getTransaction paycomTxId;
  match tx with
  | None => mret (fail id ERR.NOT_FOUND)
  | Some tx =>
      tx ← expire tx;
      if (Tx.state tx =? -1) || (Tx.state tx =? -2)
      then mret (ok id (Transaction (txResponse tx)))
      else
        let tx := Tx.set_state (if Tx.state tx =? 2 then -2 else -1) tx in
        t ← now;
        let tx := Tx.set_cancel_time t tx in
        let tx := Tx.set_reason (Some reason) tx in
        _ ← saveTransaction tx;
        _ ← setDonationState (Tx.account tx) (Tx.state tx);
        mret (ok id (Transaction (txResponse tx)))
  end.

Definition handleCheck (id : Z) (paycomTxId : string) : M Reply :=
  tx ← getTransaction paycomTxId;
  match tx with
  | None => mret (fail id ERR.NOT_FOUND)
  | Some tx =>
      tx ← expire tx;
      mret (ok id (Transaction (txResponse tx)))
  end.

Definition handleStatement (id : Z) (from to : option Z) : M Reply :=
  items ← listTransactions from to;
  mret (ok id (Statement (txResponse <$> items))).

(* ----------------------- Merchant API ---------------------------- *)

(** The method name of a call together with the parameters the
    dispatcher extracts for it. *)
Inductive Call :=
  | CheckPerformTransaction (account : string) (amount : Z)
  | CreateTransaction (account : string) (amount : Z) (id : string)
  | PerformTransaction (id : string)
  | CancelTransaction (id : string) (reason : option Z)
  | CheckTransaction (id : string)
  | GetStatement (from to : option Z)
  | OtherMethod (method : string).

Record Request := {
  authorized : bool;      (* requirePaymeAuth(req) *)
  rpc_id : Z;             (* req.body.id *)
  call : Call
}.

Definition merchantHandler (req : Request) : M Reply :=
  if negb (authorized req) then mret (fail (rpc_id req) ERR.AUTH)
  else
    let id := rpc_id req in
    match call req with
    | CheckPerformTransaction donationId amount => handleCheckPerform id donationId amount
    | CreateTransaction donationId amount paycomTxId =>
        handleCreate id donationId amount paycomTxId
    | PerformTransaction paycomTxId => handlePerform id paycomTxId
    | CancelTransaction paycomTxId reason =>
        handleCancel id paycomTxId (default 0 reason)
    | CheckTransaction paycomTxId => handleCheck id paycomTxId
    | GetStatement from to => handleStatement id from to
    | OtherMethod _ => mret (fail id ERR.METHOD)
    end.

(** Serving a sequence of requests one after the other. *)
Fixpoint serve (reqs : list Request) : M (list Reply) :=
  match reqs with
  | [] => mret []
  | req :: reqs =>
      r ← merchantHandler req;
      rs ← serve reqs;
      mret (r :: rs)
  end.

Definition run (reqs : list Request) (w : World) : World := (serve reqs w).2.

(* ------------------------------------------------------------------ *)
(** * Vocabulary of the statements *)

(** One reading of the clock has been consumed. *)
Definition tick (w : World) : World :=
  {| donations := donations w; transactions := transactions w;
     clock := clock w; reads := S (reads w) |}.

(** [isExpired] at clock reading [t]. *)
Definition expired_at (t : Z) (create_time : Z) : Prop :=
  create_time + TRANSACTION_TTL_MS < t.

Global Instance expired_at_dec t c : Decision (expired_at t c) :=
  decide (c + TRANSACTION_TTL_MS < t).

(** What [autoCancelExpired] turns a Created transaction into when the
    clock reads [t]. *)
Definition auto_cancelled (t : Z) (tx : Tx.t) : Tx.t :=
  Tx.set_reason (Some 4) (Tx.set_cancel_time t (Tx.set_state (-1) tx)).

(** What [handleCancel] turns a live transaction into. *)
Definition cancelled (t reason : Z) (tx : Tx.t) : Tx.t :=
  Tx.set_reason (Some reason)
    (Tx.set_cancel_time t
       (Tx.set_state (if Tx.state tx =? 2 then -2 else -1) tx)).

(** What [handlePerform] turns a live transaction into. *)
Definition performed (t : Z) (tx : Tx.t) : Tx.t :=
  Tx.set_perform_time t (Tx.set_state 2 tx).


(** [perform_time] is set exactly in the two states that were performed. *)
Definition perform_time_inv (w : World) : Prop :=
  ∀ k row, transactions w !! k = Some row →
    Transactions.perform_time row ≠ 0 ↔
    Transactions.state row = 2 ∨ Transactions.state row = -2.

(** The write-once columns of the row stored under [k] are those of [old]. *)
Definition keeps_identity (k : string) (old : Transactions.row) (w : World) : Prop :=
  ∃ new, transactions w !! k = Some new ∧
    Transactions.donation_id new = Transactions.donation_id old ∧
    Transactions.amount new = Transactions.amount old ∧
    Transactions.create_time new = Transactions.create_time old.

(** The ways in which a call replaces the row stored under [k]
    (or stores a first one), [clock] being the clock of the world. *)
Inductive row_step (clock : nat → Z) (k : string)
  : option Transactions.row → Transactions.row → Prop :=
  | step_create donationId amount n :
      row_step clock k None
        (row_of_tx {| Tx.paycomTxId := k; Tx.account := donationId;
                      Tx.amount := amount; Tx.state := 1; Tx.create_time := clock n;
                      Tx.perform_time := 0; Tx.cancel_time := 0;
                      Tx.reason := None |})
  | step_expire old n :
      Transactions.state old = 1 →
      row_step clock k (Some old)
        (row_of_tx (auto_cancelled (clock n) (tx_of_row k old)))
  | step_perform old n :
      Transactions.state old ≠ -1 → Transactions.state old ≠ -2 →
      Transactions.state old ≠ 2 →
      row_step clock k (Some old) (row_of_tx (performed (clock n) (tx_of_row k old)))
  | step_cancel old n reason :
      Transactions.state old ≠ -1 → Transactions.state old ≠ -2 →
      row_step clock k (Some old)
        (row_of_tx (cancelled (clock n) reason (tx_of_row k old))).

Definition one_row_changed (w w' : World) : Prop :=
  clock w' = clock w ∧
  (transactions w' = transactions w ∨
   ∃ k new, row_step (clock w) k (transactions w !! k) new ∧
            transactions w' = <[k := new]> (transactions w)).

(* ------------------------------------------------------------------ *)
(** * Worlds used in the examples *)

Module Demo.
(** The clock advances by one millisecond per reading. *)
Definition steady (n : nat) : Z := 1700000000000 + Z.of_nat n.


Definition empty (clock : nat → Z) : World :=
  {| donations := ∅; transactions := ∅; clock := clock; reads := 0 |}.

(** One donation [d1] of 1000000 tiyin, no transaction yet. *)
Definition shop (clock : nat → Z) : World :=
  (createDonation "d1" 1000000 1699999999000 (empty clock)).2.


Definition rpc (n : Z) (c : Call) : Request :=
  {| authorized := true; rpc_id := n; call := c |}.

Definition create_tx1 : Request := rpc 1 (CreateTransaction "d1" 1000000 "tx1").

(** [tx1] has been created for [d1]. *)
Definition created : World := run [create_tx1] (shop steady).


(** [tx1] has been created and performed: [d1] is Paid. *)
Definition paid : World :=
  run [create_tx1; rpc 2 (PerformTransaction "tx1")] (shop steady).

(** [tx1] has been created and cancelled: [d1] is in state -1. *)
Definition cancelled_before : World :=
  run [create_tx1; rpc 2 (CancelTransaction "tx1" (Some 3))] (shop steady).



(** The row of [tx1] as CreateTransaction stores it at the first reading
    of [steady]. *)
Definition row1 : Transactions.row :=
  {| Transactions.donation_id := "d1"; Transactions.amount := 1000000;
     Transactions.state := 1; Transactions.create_time := 1700000000000;
     Transactions.perform_time := 0; Transactions.cancel_time := 0;
     Transactions.reason := None |}.

End Demo.

(* ------------------------------------------------------------------ *)
(** * Authentication *)

Section Auth.
(** [SECRET_KEY] is the environment's PAYME_SECRET_KEY, and
    [base64_utf8 s] stands for the runtime's
    [Buffer.from(s, 'base64').toString('utf8')]. *)
Variable SECRET_KEY : string.
Variable base64_utf8 : string → string.

(* header.slice(6) *)
Definition slice6 (header : string) : string :=
  String.substring 6 (String.length header - 6) header.

(** [authorization] is [req.headers.authorization], absent when the
    header was not sent. *)
Definition requirePaymeAuth (authorization : option string) : bool :=
  let header := default ""%string authorization in
  if negb (String.prefix "Basic " header) then false
  else String.eqb (base64_utf8 (slice6 header)) ("Paycom:" +:+ SECRET_KEY).

(** The request the dispatcher sees for an HTTP call with that header. *)
Definition request_of (authorization : option string) (id : Z) (c : Call) : Request :=
  {| authorized := requirePaymeAuth authorization; rpc_id := id; call := c |}.
End Auth.

(** A stand-in for the decoder in the examples: it decodes the one
    string that is the base64 form of Paycom:secret. *)
Definition demo_base64_utf8 (s : string) : string :=
  if String.eqb s "UGF5Y29tOnNlY3JldA==" then "Paycom:secret" else "".

(* ------------------------------------------------------------------ *)
(** * More vocabulary *)

(** Calls that cannot change the world: unauthenticated ones,
    CheckPerformTransaction, unknown methods, and GetStatement when its
    [to] is given and not 0, so that the clock is not read. *)
Definition inert (req : Request) : bool :=
  negb (authorized req) ||
  match call req with
  | CheckPerformTransaction _ _ | OtherMethod _ => true
  | GetStatement _ (Some v) => negb (v =? 0)
  | _ => false
  end.

(** The [id] member of a reply. *)
Definition reply_id (r : Reply) : Z :=
  match r with
  | ok id _ => id
  | fail id _ => id
  end.


(** The two cancelled states. *)
Definition cancelled_state (s : Z) : Prop := s = -1 ∨ s = -2.

(** The four states the handlers write. *)
Definition known_state (s : Z) : Prop := s = 1 ∨ s = 2 ∨ s = -1 ∨ s = -2.

Definition states_known (w : World) : Prop :=
  ∀ k row, transactions w !! k = Some row → known_state (Transactions.state row).

(** [cancel_time] and [reason] are set exactly in the cancelled states. *)
Definition cancel_marks (w : World) : Prop :=
  ∀ k row, transactions w !! k = Some row →
    (Transactions.cancel_time row ≠ 0 ↔ cancelled_state (Transactions.state row)) ∧
    (is_Some (Transactions.reason row) ↔ cancelled_state (Transactions.state row)).

(** Every transaction refers to a stored donation of the same amount. *)
Definition rows_match_donations (w : World) : Prop :=
  ∀ k row, transactions w !! k = Some row →
    ∃ d, donations w !! Transactions.donation_id row = Some d ∧
         Donations.amount d = Transactions.amount row.

(** Every Paid donation has a transaction that was performed. *)
Definition paid_is_backed (w : World) : Prop :=
  ∀ id d, donations w !! id = Some d → Donations.state d = 2 →
    ∃ k row, transactions w !! k = Some row ∧
      Transactions.donation_id row = id ∧
      (Transactions.state row = 2 ∨ Transactions.state row = -2).

(** The only change a call makes to table [donations]: the state of at
    most one donation is set to one of the four written states. *)
Definition one_donation_changed (w w' : World) : Prop :=
  donations w' = donations w ∨
  ∃ id s, known_state s ∧
    donations w' = alter (Donations.set_state s) id (donations w).

(** Tables apart, two worlds may differ in the clock readings consumed. *)
Definition same_tables (w w' : World) : Prop :=
  transactions w' = transactions w ∧ donations w' = donations w.

(** World [w] with the row of [tx] stored under [k]. *)
Definition stored (k : string) (tx : Tx.t) (w : World) : World :=
  with_transactions (<[k := row_of_tx tx]> (transactions w)) w.

(** The outcomes of PerformTransaction. *)
Inductive perform_case (id : Z) (k : string) (w : World) : Reply * World → Prop :=
  | perform_missing :
      transactions w !! k = None →
      perform_case id k w (fail id ERR.NOT_FOUND, w)
  | perform_expired row :
      transactions w !! k = Some row →
      Transactions.state row = 1 →
      expired_at (clock w (reads w)) (Transactions.create_time row) →
      perform_case id k w
        (fail id ERR.CANNOT_PERFORM,
         stored k (auto_cancelled (clock w (S (reads w))) (tx_of_row k row))
           (tick (tick w)))
  | perform_cancelled row :
      transactions w !! k = Some row →
      cancelled_state (Transactions.state row) →
      perform_case id k w (fail id ERR.CANNOT_PERFORM, tick w)
  | perform_repeat row :
      transactions w !! k = Some row →
      Transactions.state row = 2 →
      perform_case id k w (ok id (Transaction (txResponse (tx_of_row k row))), tick w)
  | perform_first row :
      transactions w !! k = Some row →
      ¬ (Transactions.state row = 1 ∧
         expired_at (clock w (reads w)) (Transactions.create_time row)) →
      ¬ cancelled_state (Transactions.state row) →
      Transactions.state row ≠ 2 →
      perform_case id k w
        (ok id (Transaction
                  (txResponse (performed (clock w (S (reads w))) (tx_of_row k row)))),
         with_donations
           (alter (Donations.set_state 2) (Transactions.donation_id row) (donations w))
           (stored k (performed (clock w (S (reads w))) (tx_of_row k row))
              (tick (tick w)))).

(** The outcomes of CancelTransaction. *)
Inductive cancel_case (id : Z) (k : string) (reason : Z) (w : World)
    : Reply * World → Prop :=
  | cancel_missing :
      transactions w !! k = None →
      cancel_case id k reason w (fail id ERR.NOT_FOUND, w)
  | cancel_expired row :
      transactions w !! k = Some row →
      Transactions.state row = 1 →
      expired_at (clock w (reads w)) (Transactions.create_time row) →
      cancel_case id k reason w
        (ok id (Transaction
                  (txResponse (auto_cancelled (clock w (S (reads w))) (tx_of_row k row)))),
         stored k (auto_cancelled (clock w (S (reads w))) (tx_of_row k row))
           (tick (tick w)))
  | cancel_repeat row :
      transactions w !! k = Some row →
      cancelled_state (Transactions.state row) →
      cancel_case id k reason w
        (ok id (Transaction (txResponse (tx_of_row k row))), tick w)
  | cancel_first row :
      transactions w !! k = Some row →
      ¬ (Transactions.state row = 1 ∧
         expired_at (clock w (reads w)) (Transactions.create_time row)) →
      ¬ cancelled_state (Transactions.state row) →
      cancel_case id k reason w
        (ok id (Transaction
                  (txResponse (cancelled (clock w (S (reads w))) reason (tx_of_row k row)))),
         with_donations
           (alter (Donations.set_state
                     (if Transactions.state row =? 2 then -2 else -1))
              (Transactions.donation_id row) (donations w))
           (stored k (cancelled (clock w (S (reads w))) reason (tx_of_row k row))
              (tick (tick w)))).

(** The outcomes of CheckTransaction. *)
Inductive check_case (id : Z) (k : string) (w : World) : Reply * World → Prop :=
  | check_missing :
      transactions w !! k = None →
      check_case id k w (fail id ERR.NOT_FOUND, w)
  | check_expired row :
      transactions w !! k = Some row →
      Transactions.state row = 1 →
      expired_at (clock w (reads w)) (Transactions.create_time row) →
      check_case id k w
        (ok id (Transaction
                  (txResponse (auto_cancelled (clock w (S (reads w))) (tx_of_row k row)))),
         stored k (auto_cancelled (clock w (S (reads w))) (tx_of_row k row))
           (tick (tick w)))
  | check_live row :
      transactions w !! k = Some row →
      ¬ (Transactions.state row = 1 ∧
         expired_at (clock w (reads w)) (Transactions.create_time row)) →
      check_case id k w (ok id (Transaction (txResponse (tx_of_row k row))), tick w).

(** The outcomes of CreateTransaction, by the checks it makes in order. *)
Inductive create_case (id : Z) (donationId : string) (amount : Z) (k : string)
    (w : World) : Reply * World → Prop :=
  | create_no_account :
      donations w !! donationId = None →
      create_case id donationId amount k w (fail id ERR.ACCOUNT, w)
  | create_wrong_amount d :
      donations w !! donationId = Some d → Donations.amount d ≠ amount →
      create_case id donationId amount k w (fail id ERR.AMOUNT, w)
  | create_paid d :
      donations w !! donationId = Some d → Donations.amount d = amount →
      Donations.state d = 2 →
      create_case id donationId amount k w (fail id ERR.CANNOT_PERFORM, w)
  | create_conflict d row :
      donations w !! donationId = Some d → Donations.amount d = amount →
      Donations.state d ≠ 2 →
      transactions w !! k = Some row →
      Transactions.donation_id row ≠ donationId ∨ Transactions.amount row ≠ amount →
      create_case id donationId amount k w (fail id ERR.CANNOT_PERFORM, w)
  | create_repeat_expired d row :
      donations w !! donationId = Some d → Donations.amount d = amount →
      Donations.state d ≠ 2 →
      transactions w !! k = Some row →
      Transactions.donation_id row = donationId → Transactions.amount row = amount →
      Transactions.state row = 1 →
      expired_at (clock w (reads w)) (Transactions.create_time row) →
      create_case id donationId amount k w
        (ok id (Transaction
                  (txResponse (auto_cancelled (clock w (S (reads w))) (tx_of_row k row)))),
         stored k (auto_cancelled (clock w (S (reads w))) (tx_of_row k row))
           (tick (tick w)))
  | create_repeat_live d row :
      donations w !! donationId = Some d → Donations.amount d = amount →
      Donations.state d ≠ 2 →
      transactions w !! k = Some row →
      Transactions.donation_id row = donationId → Transactions.amount row = amount →
      ¬ (Transactions.state row = 1 ∧
         expired_at (clock w (reads w)) (Transactions.create_time row)) →
      create_case id donationId amount k w
        (ok id (Transaction (txResponse (tx_of_row k row))), tick w)
  | create_new d :
      donations w !! donationId = Some d → Donations.amount d = amount →
      Donations.state d ≠ 2 →
      transactions w !! k = None →
      create_case id donationId amount k w
        (ok id (Transaction
                  (txResponse {| Tx.paycomTxId := k; Tx.account := donationId;
                                 Tx.amount := amount; Tx.state := 1;
                                 Tx.create_time := clock w (reads w);
                                 Tx.perform_time := 0; Tx.cancel_time := 0;
                                 Tx.reason := None |})),
         with_donations (alter (Donations.set_state 1) donationId (donations w))
           (stored k {| Tx.paycomTxId := k; Tx.account := donationId;
                        Tx.amount := amount; Tx.state := 1;
                        Tx.create_time := clock w (reads w);
                        Tx.perform_time := 0; Tx.cancel_time := 0;
                        Tx.reason := None |}
              (tick w))).

(* ------------------------------------------------------------------ *)
(** * Running the monad *)

Ltac exec :=
  unfold handleCheckPerform, handleCreate, handlePerform, handleCancel,
    handleCheck, handleStatement, listTransactions, or_now, expire,
    isExpired, autoCancelExpired, getDonation, getTransaction,
    saveTransaction, setDonationState, now, reading, writing,
    mbind, M_bind, mret, M_ret in *;
  simpl in *.

Ltac row_changed k :=
  split; [done|]; right; eexists k, _; split; [|reflexivity].


Lemma do_update_same_identity old tx :
  Tx.account tx = Transactions.donation_id old →
  Tx.amount tx = Transactions.amount old →
  Tx.create_time tx = Transactions.create_time old →
  do_update old tx = row_of_tx tx.
Proof. unfold do_update, row_of_tx. by intros -> -> ->. Qed.

Lemma expire_run k row w :
  transactions w !! k = Some row →
  expire (tx_of_row k row) w =
    if (Transactions.create_time row + TRANSACTION_TTL_MS <? clock w (reads w))
       && (Transactions.state row =? 1)
    then
      let tx' := auto_cancelled (clock w (S (reads w))) (tx_of_row k row) in
      (tx', with_transactions (<[k := row_of_tx tx']> (transactions w)) (tick (tick w)))
    else (tx_of_row k row, tick w).
Proof.
  intros Hk. exec.
  destruct (_ <? _); simpl; [|done].
  destruct (Transactions.state row =? 1) eqn:Hs; simpl; [|done].
  rewrite Hk. reflexivity.
Qed.

(** The three handlers that start from a stored transaction, written
    out on a world where the transaction exists. *)
Lemma handleCheck_found id k row w :
  transactions w !! k = Some row →
  handleCheck id k w =
    let r := expire (tx_of_row k row) w in
    (ok id (Transaction (txResponse r.1)), r.2).
Proof.
  intros Hk. unfold handleCheck, getTransaction, reading, mbind, M_bind, mret, M_ret.
  rewrite Hk. simpl. by destruct (expire _ _).
Qed.

Lemma handlePerform_found id k row w :
  transactions w !! k = Some row →
  handlePerform id k w =
    let r := expire (tx_of_row k row) w in
    let tx := r.1 in
    if (Tx.state tx =? -1) || (Tx.state tx =? -2) then (fail id ERR.CANNOT_PERFORM, r.2)
    else if Tx.state tx =? 2 then (ok id (Transaction (txResponse tx)), r.2)
    else
      let tx' := performed (clock r.2 (reads r.2)) tx in
      (ok id (Transaction (txResponse tx')),
       with_donations (alter (Donations.set_state 2) (Tx.account tx) (donations r.2))
         (with_transactions
            (match transactions r.2 !! Tx.paycomTxId tx with
             | Some old => <[Tx.paycomTxId tx := do_update old tx']> (transactions r.2)
             | None => <[Tx.paycomTxId tx := row_of_tx tx']> (transactions r.2)
             end) (tick r.2))).
Proof.
  intros Hk. unfold handlePerform, getTransaction, reading, mbind, M_bind, mret, M_ret.
  rewrite Hk. simpl. destruct (expire _ _) as [tx w1]. simpl.
  destruct (_ || _); [done|]. destruct (Tx.state tx =? 2); done.
Qed.

Lemma handleCancel_found id k reason row w :
  transactions w !! k = Some row →
  handleCancel id k reason w =
    let r := expire (tx_of_row k row) w in
    let tx := r.1 in
    if (Tx.state tx =? -1) || (Tx.state tx =? -2)
    then (ok id (Transaction (txResponse tx)), r.2)
    else
      let tx' := cancelled (clock r.2 (reads r.2)) reason tx in
      (ok id (Transaction (txResponse tx')),
       with_donations
         (alter (Donations.set_state (Tx.state tx')) (Tx.account tx) (donations r.2))
         (with_transactions
            (match transactions r.2 !! Tx.paycomTxId tx with
             | Some old => <[Tx.paycomTxId tx := do_update old tx']> (transactions r.2)
             | None => <[Tx.paycomTxId tx := row_of_tx tx']> (transactions r.2)
             end) (tick r.2))).
Proof.
  intros Hk. unfold handleCancel, getTransaction, reading, mbind, M_bind, mret, M_ret.
  rewrite Hk. simpl. destruct (expire _ _) as [tx w1]. simpl.
  destruct (_ || _); done.
Qed.

(* ------------------------------------------------------------------ *)
(** * Error precedence *)



(* ------------------------------------------------------------------ *)

(* ------------------------------------------------------------------ *)
(** * Conflicting creation *)




(* ------------------------------------------------------------------ *)
(** * CheckPerformTransaction *)

(** C10, as the code has it. CheckPerformTransaction looks at the
    donation's existence and amount only: whenever the stored amount is
    the requested one it answers allow = true and changes nothing,
    whatever the donation's state. CreateTransaction for the same donation
    is rejected with cannot-perform when that state is Paid (2). *)
Theorem check_perform_ignores_state (id : Z) (donationId : string) (amount : Z)
    (paycomTxId : string) (w : World) (d : Donations.row) :
  donations w !! donationId = Some d →
  Donations.amount d = amount →
  handleCheckPerform id donationId amount w = (ok id (Allow true), w) ∧
  (Donations.state d = 2 →
     handleCreate id donationId amount paycomTxId w = (fail id ERR.CANNOT_PERFORM, w)).
Proof.
  intros Hd Ha. split.
  - exec. rewrite Hd, Ha, Z.eqb_refl. done.
  - intros Hs. exec. rewrite Hd, Ha, Hs, Z.eqb_refl. done.
Qed.

Lemma check_perform_ignores_state_witness :
  Donations.state <$> donations Demo.paid !! "d1"%string = Some 2 ∧
  handleCheckPerform 3 "d1" 1000000 Demo.paid = (ok 3 (Allow true), Demo.paid) ∧
  handleCreate 3 "d1" 1000000 "tx2" Demo.paid = (fail 3 ERR.CANNOT_PERFORM, Demo.paid).
Proof.
  split; [vm_compute; reflexivity|].
  destruct (check_perform_ignores_state 3 "d1" 1000000 "tx2" Demo.paid
              {| Donations.amount := 1000000; Donations.state := 2;
                 Donations.created_at := 1699999999000 |}) as [H1 H2].
  - vm_compute. reflexivity.
  - reflexivity.
  - split; [exact H1 | apply H2; reflexivity].
Defined.

(** C10 as stated fails for a cancelled donation: CheckPerformTransaction
    allows it, and CreateTransaction is not rejected either, it opens a
    new transaction. *)
Lemma check_perform_cancelled_counterexample :
  Donations.state <$> donations Demo.cancelled_before !! "d1"%string = Some (-1) ∧
  (handleCheckPerform 3 "d1" 1000000 Demo.cancelled_before).1 = ok 3 (Allow true) ∧
  (handleCreate 3 "d1" 1000000 "tx2" Demo.cancelled_before).1
    = ok 3 (Transaction
              (txResponse {| Tx.paycomTxId := "tx2"; Tx.account := "d1";
                             Tx.amount := 1000000; Tx.state := 1;
                             Tx.create_time := 1700000000003; Tx.perform_time := 0;
                             Tx.cancel_time := 0; Tx.reason := None |})) ∧
  (handleCreate 3 "d1" 1000000 "tx2" Demo.cancelled_before).1
    ≠ fail 3 ERR.CANNOT_PERFORM.
Proof. vm_compute. repeat split; congruence. Qed.

(* ------------------------------------------------------------------ *)
(** * Expiry *)

Lemma expire_expired k row w :
  transactions w !! k = Some row →
  Transactions.state row = 1 →
  expired_at (clock w (reads w)) (Transactions.create_time row) →
  expire (tx_of_row k row) w =
    (auto_cancelled (clock w (S (reads w))) (tx_of_row k row),
     with_transactions
       (<[k := row_of_tx (auto_cancelled (clock w (S (reads w))) (tx_of_row k row))]>
          (transactions w))
       (tick (tick w))).
Proof.
  intros Hk Hs He. rewrite (expire_run k row w Hk), Hs.
  unfold expired_at in He. apply Z.ltb_lt in He. by rewrite He.
Qed.

Lemma expire_live k row w :
  transactions w !! k = Some row →
  ¬ (Transactions.state row = 1 ∧
     expired_at (clock w (reads w)) (Transactions.create_time row)) →
  expire (tx_of_row k row) w = (tx_of_row k row, tick w).
Proof.
  intros Hk Hn. rewrite (expire_run k row w Hk).
  destruct (Z.ltb_spec (Transactions.create_time row + TRANSACTION_TTL_MS)
              (clock w (reads w))); simpl; [|done].
  destruct (Z.eqb_spec (Transactions.state row) 1); [|done].
  exfalso. apply Hn. done.
Qed.

Lemma handleCancel_expired id k reason row w :
  transactions w !! k = Some row →
  Transactions.state row = 1 →
  expired_at (clock w (reads w)) (Transactions.create_time row) →
  handleCancel id k reason w =
    (ok id (Transaction
              (txResponse (auto_cancelled (clock w (S (reads w))) (tx_of_row k row)))),
     with_transactions
       (<[k := row_of_tx (auto_cancelled (clock w (S (reads w))) (tx_of_row k row))]>
          (transactions w))
       (tick (tick w))).
Proof.
  intros Hk Hs He.
  rewrite (handleCancel_found _ _ _ _ _ Hk), (expire_expired _ _ _ Hk Hs He). done.
Qed.




(* ------------------------------------------------------------------ *)
(** * Cancellation *)

Lemma handleCancel_cancelled id k reason row w :
  transactions w !! k = Some row →
  Transactions.state row = -1 ∨ Transactions.state row = -2 →
  handleCancel id k reason w = (ok id (Transaction (txResponse (tx_of_row k row))), tick w).
Proof.
  intros Hk Hs. rewrite (handleCancel_found _ _ _ _ _ Hk).
  rewrite expire_live; [|done|lia]. simpl.
  by destruct Hs as [-> | ->].
Qed.

Lemma handleCancel_live id k reason row w :
  transactions w !! k = Some row →
  ¬ (Transactions.state row = 1 ∧
     expired_at (clock w (reads w)) (Transactions.create_time row)) →
  Transactions.state row ≠ -1 → Transactions.state row ≠ -2 →
  handleCancel id k reason w =
    let tx := cancelled (clock w (S (reads w))) reason (tx_of_row k row) in
    (ok id (Transaction (txResponse tx)),
     with_donations
       (alter (Donations.set_state (Tx.state tx)) (Transactions.donation_id row)
          (donations w))
       (with_transactions (<[k := row_of_tx tx]> (transactions w)) (tick (tick w)))).
Proof.
  intros Hk Hlive H1 H2. rewrite (handleCancel_found _ _ _ _ _ Hk).
  rewrite expire_live; [|done|done]. simpl.
  destruct (Z.eqb_spec (Transactions.state row) (-1)); [done|].
  destruct (Z.eqb_spec (Transactions.state row) (-2)); [done|]. simpl.
  rewrite Hk. by rewrite do_update_same_identity.
Qed.



(* ------------------------------------------------------------------ *)
(** * Performing *)

Lemma handlePerform_performed id k row w :
  transactions w !! k = Some row →
  Transactions.state row = 2 →
  handlePerform id k w = (ok id (Transaction (txResponse (tx_of_row k row))), tick w).
Proof.
  intros Hk Hs. rewrite (handlePerform_found _ _ _ _ Hk).
  rewrite expire_live; [|done|lia]. simpl. by rewrite Hs.
Qed.

Lemma handlePerform_cancelled id k row w :
  transactions w !! k = Some row →
  Transactions.state row = -1 ∨ Transactions.state row = -2 →
  handlePerform id k w = (fail id ERR.CANNOT_PERFORM, tick w).
Proof.
  intros Hk Hs. rewrite (handlePerform_found _ _ _ _ Hk).
  rewrite expire_live; [|done|lia]. simpl. by destruct Hs as [-> | ->].
Qed.

Lemma handlePerform_live id k row w :
  transactions w !! k = Some row →
  ¬ (Transactions.state row = 1 ∧
     expired_at (clock w (reads w)) (Transactions.create_time row)) →
  Transactions.state row ≠ -1 → Transactions.state row ≠ -2 →
  Transactions.state row ≠ 2 →
  handlePerform id k w =
    let tx := performed (clock w (S (reads w))) (tx_of_row k row) in
    (ok id (Transaction (txResponse tx)),
     with_donations
       (alter (Donations.set_state 2) (Transactions.donation_id row) (donations w))
       (with_transactions (<[k := row_of_tx tx]> (transactions w)) (tick (tick w)))).
Proof.
  intros Hk Hlive H1 H2 H3. rewrite (handlePerform_found _ _ _ _ Hk).
  rewrite expire_live; [|done|done]. simpl.
  destruct (Z.eqb_spec (Transactions.state row) (-1)); [done|].
  destruct (Z.eqb_spec (Transactions.state row) (-2)); [done|].
  destruct (Z.eqb_spec (Transactions.state row) 2); [done|]. simpl.
  rewrite Hk. by rewrite do_update_same_identity.
Qed.

Lemma handlePerform_expired id k row w :
  transactions w !! k = Some row →
  Transactions.state row = 1 →
  expired_at (clock w (reads w)) (Transactions.create_time row) →
  handlePerform id k w =
    (fail id ERR.CANNOT_PERFORM,
     with_transactions
       (<[k := row_of_tx (auto_cancelled (clock w (S (reads w))) (tx_of_row k row))]>
          (transactions w))
       (tick (tick w))).
Proof.
  intros Hk Hs He.
  rewrite (handlePerform_found _ _ _ _ Hk), (expire_expired _ _ _ Hk Hs He). done.
Qed.



(* ------------------------------------------------------------------ *)
(** * Creation *)

Lemma handleCreate_paid id donationId amount k d w :
  donations w !! donationId = Some d →
  Donations.amount d = amount →
  Donations.state d = 2 →
  handleCreate id donationId amount k w = (fail id ERR.CANNOT_PERFORM, w).
Proof. intros Hd Ha Hs. exec. by rewrite Hd, Ha, Hs, Z.eqb_refl. Qed.

Lemma handleCreate_repeat id donationId amount k d row w :
  donations w !! donationId = Some d →
  Donations.amount d = amount →
  Donations.state d ≠ 2 →
  transactions w !! k = Some row →
  Transactions.donation_id row = donationId →
  Transactions.amount row = amount →
  handleCreate id donationId amount k w =
    let r := expire (tx_of_row k row) w in
    (ok id (Transaction (txResponse r.1)), r.2).
Proof.
  intros Hd Ha Hs Hk Hacc Ham.
  unfold handleCreate, getDonation, getTransaction, reading, mbind, M_bind, mret, M_ret.
  simpl. rewrite Hd, Ha, Z.eqb_refl. simpl.
  destruct (Z.eqb_spec (Donations.state d) 2); [done|].
  rewrite Hk. simpl. rewrite Hacc, Ham, String.eqb_refl, Z.eqb_refl. simpl.
  by destruct (expire _ _).
Qed.

Lemma handleCreate_fresh id donationId amount k d w :
  donations w !! donationId = Some d →
  Donations.amount d = amount →
  Donations.state d ≠ 2 →
  transactions w !! k = None →
  handleCreate id donationId amount k w =
    let tx := {| Tx.paycomTxId := k; Tx.account := donationId; Tx.amount := amount;
                 Tx.state := 1; Tx.create_time := clock w (reads w);
                 Tx.perform_time := 0; Tx.cancel_time := 0; Tx.reason := None |} in
    (ok id (Transaction (txResponse tx)),
     with_donations (alter (Donations.set_state 1) donationId (donations w))
       (with_transactions (<[k := row_of_tx tx]> (transactions w)) (tick w))).
Proof.
  intros Hd Ha Hs Hk. exec. rewrite Hd, Ha, Z.eqb_refl. simpl.
  destruct (Z.eqb_spec (Donations.state d) 2); [done|].
  rewrite Hk. simpl. rewrite Hk. done.
Qed.






(* ------------------------------------------------------------------ *)
(** * One call changes at most one row *)

Lemma one_row_changed_tick w : one_row_changed w (tick w).
Proof. split; [done|]. by left. Qed.

Lemma one_row_changed_refl w : one_row_changed w w.
Proof. split; [done|]. by left. Qed.

Local Hint Resolve one_row_changed_tick one_row_changed_refl : core.

Lemma handlePerform_one_row id k w : one_row_changed w (handlePerform id k w).2.
Proof.
  destruct (transactions w !! k) as [row|] eqn:Hk.
  - destruct (decide (Transactions.state row = 1 ∧
        expired_at (clock w (reads w)) (Transactions.create_time row))) as [[Hs He]|Hlive].
    { rewrite (handlePerform_expired _ _ _ _ Hk Hs He). row_changed k.
      rewrite Hk. by constructor. }
    destruct (decide (Transactions.state row = -1 ∨ Transactions.state row = -2)) as [Hc|Hc].
    { rewrite (handlePerform_cancelled _ _ _ _ Hk Hc). auto. }
    destruct (decide (Transactions.state row = 2)) as [Hp|Hp].
    { rewrite (handlePerform_performed _ _ _ _ Hk Hp). auto. }
    rewrite (handlePerform_live _ _ _ _ Hk Hlive); [|lia..]. row_changed k.
    rewrite Hk. constructor; lia.
  - exec. rewrite Hk. auto.
Qed.

Lemma handleCancel_one_row id k reason w :
  one_row_changed w (handleCancel id k reason w).2.
Proof.
  destruct (transactions w !! k) as [row|] eqn:Hk.
  - destruct (decide (Transactions.state row = 1 ∧
        expired_at (clock w (reads w)) (Transactions.create_time row))) as [[Hs He]|Hlive].
    { rewrite (handleCancel_expired _ _ _ _ _ Hk Hs He). row_changed k.
      rewrite Hk. by constructor. }
    destruct (decide (Transactions.state row = -1 ∨ Transactions.state row = -2)) as [Hc|Hc].
    { rewrite (handleCancel_cancelled _ _ _ _ _ Hk Hc). auto. }
    rewrite (handleCancel_live _ _ _ _ _ Hk Hlive); [|lia..]. row_changed k.
    rewrite Hk. constructor; lia.
  - exec. rewrite Hk. auto.
Qed.

Lemma expire_one_row k row w :
  transactions w !! k = Some row →
  one_row_changed w (expire (tx_of_row k row) w).2.
Proof.
  intros Hk.
  destruct (decide (Transactions.state row = 1 ∧
      expired_at (clock w (reads w)) (Transactions.create_time row))) as [[Hs He]|Hlive].
  - rewrite (expire_expired _ _ _ Hk Hs He). row_changed k. rewrite Hk. by constructor.
  - rewrite (expire_live _ _ _ Hk Hlive). auto.
Qed.

Lemma handleCheck_one_row id k w : one_row_changed w (handleCheck id k w).2.
Proof.
  destruct (transactions w !! k) as [row|] eqn:Hk.
  - rewrite (handleCheck_found _ _ _ _ Hk). simpl. by apply expire_one_row.
  - exec. rewrite Hk. auto.
Qed.

Lemma handleCreate_one_row id donationId amount k w :
  one_row_changed w (handleCreate id donationId amount k w).2.
Proof.
  destruct (donations w !! donationId) as [d|] eqn:Hd; [|exec; rewrite Hd; auto].
  destruct (decide (Donations.amount d = amount)) as [Ha|Ha]; cycle 1.
  { exec. rewrite Hd. destruct (Z.eqb_spec (Donations.amount d) amount); [done|]. auto. }
  destruct (decide (Donations.state d = 2)) as [Hs|Hs].
  { rewrite (handleCreate_paid _ _ _ _ _ _ Hd Ha Hs). auto. }
  destruct (transactions w !! k) as [row|] eqn:Hk.
  - destruct (decide (Transactions.donation_id row = donationId ∧
                      Transactions.amount row = amount)) as [[Hacc Ham]|Hdiff].
    + rewrite (handleCreate_repeat _ _ _ _ _ _ _ Hd Ha Hs Hk Hacc Ham). simpl.
      by apply expire_one_row.
    + exec. rewrite Hd, Ha, Z.eqb_refl. simpl.
      destruct (Z.eqb_spec (Donations.state d) 2); [done|]. rewrite Hk. simpl.
      destruct (String.eqb_spec (Transactions.donation_id row) donationId);
        destruct (Z.eqb_spec (Transactions.amount row) amount); simpl; auto.
      tauto.
  - rewrite (handleCreate_fresh _ _ _ _ _ _ Hd Ha Hs Hk). row_changed k.
    rewrite Hk. constructor.
Qed.

Lemma handleCheckPerform_unchanged id donationId amount w :
  (handleCheckPerform id donationId amount w).2 = w.
Proof.
  exec. destruct (donations w !! donationId) as [d|]; [|done].
  by destruct (negb _).
Qed.

Lemma handleStatement_one_row id from to w :
  one_row_changed w (handleStatement id from to w).2.
Proof.
  exec. destruct to as [v|]; [destruct (v =? 0)|]; simpl; auto.
Qed.

Lemma merchantHandler_one_row req w : one_row_changed w (merchantHandler req w).2.
Proof.
  unfold merchantHandler. destruct (authorized req); simpl; [|auto].
  destruct (call req); auto using handlePerform_one_row, handleCancel_one_row,
    handleCheck_one_row, handleCreate_one_row, handleStatement_one_row.
  rewrite handleCheckPerform_unchanged. auto.
Qed.

Lemma run_cons req reqs w : run (req :: reqs) w = run reqs (merchantHandler req w).2.
Proof.
  unfold run. simpl. unfold mbind, M_bind, mret, M_ret.
  destruct (merchantHandler req w) as [r w1]. simpl. by destruct (serve reqs w1).
Qed.

Lemma run_clock reqs w : clock (run reqs w) = clock w.
Proof.
  revert w. induction reqs as [|r reqs IH]; intros w; [done|].
  rewrite run_cons, IH. apply merchantHandler_one_row.
Qed.

(* ------------------------------------------------------------------ *)
(** * Columns that are written once *)

Lemma row_step_identity clock k old new :
  row_step clock k (Some old) new →
  Transactions.donation_id new = Transactions.donation_id old ∧
  Transactions.amount new = Transactions.amount old ∧
  Transactions.create_time new = Transactions.create_time old.
Proof. inversion 1; done. Qed.

Lemma one_row_changed_identity w w' k old :
  one_row_changed w w' →
  transactions w !! k = Some old →
  keeps_identity k old w'.
Proof.
  intros [_ [Heq | (k' & new & Hstep & Heq)]] Hk; unfold keeps_identity; rewrite Heq.
  - by exists old.
  - destruct (decide (k' = k)) as [->|Hne].
    + rewrite Hk in Hstep. exists new. rewrite lookup_insert_eq.
      split; [done|]. by apply (row_step_identity _ _ _ _ Hstep).
    + exists old. by rewrite lookup_insert_ne.
Qed.

Lemma run_identity reqs w k old :
  transactions w !! k = Some old → keeps_identity k old (run reqs w).
Proof.
  revert w old. induction reqs as [|req reqs IH]; intros w old Hk.
  - by exists old.
  - rewrite run_cons.
    destruct (one_row_changed_identity _ _ _ _ (merchantHandler_one_row req w) Hk)
      as (mid & Hmid & Hd & Ha & Hc).
    destruct (IH _ _ Hmid) as (new & Hnew & Hd' & Ha' & Hc').
    exists new. split; [done|]. repeat split; congruence.
Qed.

(** C8. When a row is stored under the external id of [tx],
    [saveTransaction tx] replaces its state, perform_time, cancel_time
    and reason by those of [tx] and keeps its donation id, amount and
    create_time; no other row and no donation changes.  Whatever sequence
    of requests is served afterwards, or instead, a row is still stored
    under that id with the same donation id, amount and create_time. *)
Theorem upsert_is_write_once (tx : Tx.t) (w : World) (old : Transactions.row)
    (reqs : list Request) :
  transactions w !! Tx.paycomTxId tx = Some old →
  let w' := (saveTransaction tx w).2 in
  transactions w' !! Tx.paycomTxId tx =
    Some {| Transactions.donation_id := Transactions.donation_id old;
            Transactions.amount := Transactions.amount old;
            Transactions.state := Tx.state tx;
            Transactions.create_time := Transactions.create_time old;
            Transactions.perform_time := Tx.perform_time tx;
            Transactions.cancel_time := Tx.cancel_time tx;
            Transactions.reason := Tx.reason tx |} ∧
  (∀ k, k ≠ Tx.paycomTxId tx → transactions w' !! k = transactions w !! k) ∧
  donations w' = donations w ∧
  keeps_identity (Tx.paycomTxId tx) old (run reqs w') ∧
  keeps_identity (Tx.paycomTxId tx) old (run reqs w).
Proof.
  intros Hk w'.
  assert (Hw' : transactions w' = <[Tx.paycomTxId tx := do_update old tx]> (transactions w)).
  { unfold w'. exec. by rewrite Hk. }
  split; [by rewrite Hw', lookup_insert_eq|].
  split; [by intros k Hne; rewrite Hw', lookup_insert_ne|].
  split; [done|].
  split; [|by apply run_identity].
  destruct (run_identity reqs w' (Tx.paycomTxId tx) (do_update old tx))
    as (new & Hnew & ? & ? & ?); [by rewrite Hw', lookup_insert_eq|].
  by exists new.
Qed.

Lemma upsert_is_write_once_witness :
  transactions Demo.created !! "tx1"%string = Some Demo.row1 ∧
  keeps_identity "tx1" Demo.row1
    (run [Demo.rpc 2 (PerformTransaction "tx1");
          Demo.rpc 3 (CancelTransaction "tx1" None)] Demo.created).
Proof.
  assert (Hk : transactions Demo.created !! "tx1"%string = Some Demo.row1)
    by (vm_compute; reflexivity).
  split; [exact Hk|].
  exact (proj2 (proj2 (proj2 (proj2
    (upsert_is_write_once (performed 5 (tx_of_row "tx1" Demo.row1)) Demo.created
       Demo.row1 [Demo.rpc 2 (PerformTransaction "tx1");
                  Demo.rpc 3 (CancelTransaction "tx1" None)] Hk))))).
Defined.

(* ------------------------------------------------------------------ *)
(** * perform_time *)

Lemma perform_time_inv_empty w : transactions w = ∅ → perform_time_inv w.
Proof. intros He k row. by rewrite He, lookup_empty. Qed.

Lemma row_step_perform_time clock k o new :
  (∀ n, clock n ≠ 0) →
  (∀ old, o = Some old →
     Transactions.perform_time old ≠ 0 ↔
     Transactions.state old = 2 ∨ Transactions.state old = -2) →
  row_step clock k o new →
  Transactions.perform_time new ≠ 0 ↔
  Transactions.state new = 2 ∨ Transactions.state new = -2.
Proof.
  intros Hclock Hold Hstep.
  destruct Hstep as [? ? n | old n Hs | old n H1 H2 H3 | old n reason H1 H2]; simpl.
  - lia.
  - specialize (Hold old eq_refl). lia.
  - specialize (Hclock n). lia.
  - specialize (Hold old eq_refl).
    destruct (Z.eqb_spec (Transactions.state old) 2); lia.
Qed.

Lemma one_row_changed_perform_time w w' :
  (∀ n, clock w n ≠ 0) →
  one_row_changed w w' →
  perform_time_inv w → perform_time_inv w'.
Proof.
  intros Hclock [_ [Heq | (k' & new & Hstep & Heq)]] Hinv k row; rewrite Heq.
  - apply Hinv.
  - destruct (decide (k' = k)) as [->|Hne].
    + rewrite lookup_insert_eq. intros [= <-].
      apply (row_step_perform_time _ _ _ _ Hclock) in Hstep; [done|].
      intros old Hold. by apply (Hinv k).
    + rewrite lookup_insert_ne; [|done]. apply Hinv.
Qed.

Lemma run_perform_time reqs w :
  (∀ n, clock w n ≠ 0) → perform_time_inv w → perform_time_inv (run reqs w).
Proof.
  revert w. induction reqs as [|req reqs IH]; intros w Hclock Hinv; [done|].
  rewrite run_cons. pose proof (merchantHandler_one_row req w) as Hone.
  apply IH.
  - destruct Hone as [-> _]. done.
  - by apply (one_row_changed_perform_time w).
Qed.

Lemma one_row_changed_performed w w' k row :
  one_row_changed w w' →
  transactions w !! k = Some row →
  Transactions.state row = 2 ∨ Transactions.state row = -2 →
  ∃ row', transactions w' !! k = Some row' ∧
    Transactions.perform_time row' = Transactions.perform_time row ∧
    (Transactions.state row' = 2 ∨ Transactions.state row' = -2).
Proof.
  intros [_ [Heq | (k' & new & Hstep & Heq)]] Hk Hs; rewrite Heq.
  - by exists row.
  - destruct (decide (k' = k)) as [->|Hne].
    + exists new. rewrite lookup_insert_eq. split; [done|].
      rewrite Hk in Hstep. inversion Hstep; subst; simpl; try lia.
      split; [done|]. destruct (Z.eqb_spec (Transactions.state row) 2); lia.
    + exists row. by rewrite lookup_insert_ne.
Qed.

(** C7. Start from a world in which every stored row has a non-zero
    perform_time exactly when its state is Performed (2) or
    CancelledAfterPerform (-2), an empty table for one, and let the clock
    never read 0.  After any sequence of requests the same holds of every
    stored row.  Moreover a row in state 2 or -2 keeps its perform_time,
    which is not 0, and stays in state 2 or -2 through any further
    request, and CancelTransaction on a row in state 2 stores state -2
    with the perform_time unchanged. *)
Theorem perform_time_set_iff_performed (reqs : list Request) (req : Request)
    (w : World) :
  (∀ n, clock w n ≠ 0) →
  perform_time_inv w →
  let w1 := run reqs w in
  let w2 := (merchantHandler req w1).2 in
  perform_time_inv w1 ∧
  (∀ k row, transactions w1 !! k = Some row →
     Transactions.state row = 2 ∨ Transactions.state row = -2 →
     ∃ row', transactions w2 !! k = Some row' ∧
       Transactions.perform_time row' = Transactions.perform_time row ∧
       Transactions.perform_time row' ≠ 0 ∧
       (Transactions.state row' = 2 ∨ Transactions.state row' = -2)) ∧
  (∀ k row id reason, transactions w1 !! k = Some row →
     Transactions.state row = 2 →
     ∃ row', transactions (handleCancel id k reason w1).2 !! k = Some row' ∧
       Transactions.state row' = -2 ∧
       Transactions.perform_time row' = Transactions.perform_time row).
Proof.
  intros Hclock Hinv w1 w2.
  assert (Hinv1 : perform_time_inv w1) by by apply run_perform_time.
  split; [done|]. split.
  - intros k row Hk Hs.
    destruct (one_row_changed_performed w1 w2 k row
                (merchantHandler_one_row req w1) Hk Hs) as (row' & Hk' & Hpt & Hs').
    exists row'. repeat split; try done.
    rewrite Hpt. by apply (Hinv1 k).
  - intros k row id reason Hk Hs.
    rewrite (handleCancel_live _ _ _ _ _ Hk); [|lia..]. simpl.
    eexists. rewrite lookup_insert_eq. split; [done|]. simpl.
    by rewrite Hs.
Qed.

Lemma perform_time_set_iff_performed_witness :
  perform_time_inv
    (run [Demo.create_tx1; Demo.rpc 2 (PerformTransaction "tx1");
          Demo.rpc 3 (CancelTransaction "tx1" (Some 5))] (Demo.shop Demo.steady)).
Proof.
  refine (proj1 (perform_time_set_iff_performed
            [Demo.create_tx1; Demo.rpc 2 (PerformTransaction "tx1");
             Demo.rpc 3 (CancelTransaction "tx1" (Some 5))]
            (Demo.rpc 4 (CheckTransaction "tx1")) (Demo.shop Demo.steady) _ _)).
  - intros n. change (Demo.steady n ≠ 0). unfold Demo.steady. lia.
  - apply perform_time_inv_empty. reflexivity.
Defined.

(* ------------------------------------------------------------------ *)
(** * GetStatement *)

Global Instance create_time_le_trans : Transitive create_time_le.
Proof. unfold create_time_le. intros a b c. lia. Qed.

Global Instance create_time_le_total : Total create_time_le.
Proof. unfold create_time_le. intros a b. lia. Qed.








(* ------------------------------------------------------------------ *)
(** * Further properties of the handlers *)

Lemma handlePerform_missing id k w :
  transactions w !! k = None → handlePerform id k w = (fail id ERR.NOT_FOUND, w).
Proof. intros Hk. exec. by rewrite Hk. Qed.

Lemma handleCancel_missing id k reason w :
  transactions w !! k = None → handleCancel id k reason w = (fail id ERR.NOT_FOUND, w).
Proof. intros Hk. exec. by rewrite Hk. Qed.

Lemma handleCheck_missing id k w :
  transactions w !! k = None → handleCheck id k w = (fail id ERR.NOT_FOUND, w).
Proof. intros Hk. exec. by rewrite Hk. Qed.

Lemma handleCheck_expired id k row w :
  transactions w !! k = Some row →
  Transactions.state row = 1 →
  expired_at (clock w (reads w)) (Transactions.create_time row) →
  handleCheck id k w =
    (ok id (Transaction
              (txResponse (auto_cancelled (clock w (S (reads w))) (tx_of_row k row)))),
     with_transactions
       (<[k := row_of_tx (auto_cancelled (clock w (S (reads w))) (tx_of_row k row))]>
          (transactions w))
       (tick (tick w))).
Proof.
  intros Hk Hs He.
  rewrite (handleCheck_found _ _ _ _ Hk), (expire_expired _ _ _ Hk Hs He). done.
Qed.

Lemma handleCheck_live id k row w :
  transactions w !! k = Some row →
  ¬ (Transactions.state row = 1 ∧
     expired_at (clock w (reads w)) (Transactions.create_time row)) →
  handleCheck id k w = (ok id (Transaction (txResponse (tx_of_row k row))), tick w).
Proof.
  intros Hk Hlive. rewrite (handleCheck_found _ _ _ _ Hk), (expire_live _ _ _ Hk Hlive). done.
Qed.

Lemma handleCreate_cases id donationId amount k w :
  create_case id donationId amount k w (handleCreate id donationId amount k w).
Proof.
  destruct (donations w !! donationId) as [d|] eqn:Hd; cycle 1.
  { replace (handleCreate id donationId amount k w) with (fail id ERR.ACCOUNT, w)
      by (exec; by rewrite Hd).
    by constructor. }
  destruct (decide (Donations.amount d = amount)) as [Ha|Ha]; cycle 1.
  { replace (handleCreate id donationId amount k w) with (fail id ERR.AMOUNT, w).
    - by econstructor.
    - exec. rewrite Hd. by destruct (Z.eqb_spec (Donations.amount d) amount). }
  destruct (decide (Donations.state d = 2)) as [Hs|Hs].
  { rewrite (handleCreate_paid _ _ _ _ _ _ Hd Ha Hs). by econstructor. }
  destruct (transactions w !! k) as [row|] eqn:Hk; cycle 1.
  { rewrite (handleCreate_fresh _ _ _ _ _ _ Hd Ha Hs Hk). by econstructor. }
  destruct (decide (Transactions.donation_id row = donationId ∧
                    Transactions.amount row = amount)) as [[Hacc Ham]|Hdiff]; cycle 1.
  { replace (handleCreate id donationId amount k w)
      with (fail id ERR.CANNOT_PERFORM, w).
    - eapply create_conflict; try done.
      destruct (decide (Transactions.donation_id row = donationId)); [|by left].
      right. intros ?. by apply Hdiff.
    - exec. rewrite Hd, Ha, Z.eqb_refl. simpl.
      destruct (Z.eqb_spec (Donations.state d) 2); [done|]. rewrite Hk. simpl.
      destruct (String.eqb_spec (Transactions.donation_id row) donationId);
        destruct (Z.eqb_spec (Transactions.amount row) amount); simpl; try done.
      tauto. }
  rewrite (handleCreate_repeat _ _ _ _ _ _ _ Hd Ha Hs Hk Hacc Ham).
  destruct (decide (Transactions.state row = 1 ∧
      expired_at (clock w (reads w)) (Transactions.create_time row))) as [[Hs1 He]|Hlive].
  - rewrite (expire_expired _ _ _ Hk Hs1 He). by eapply create_repeat_expired.
  - rewrite (expire_live _ _ _ Hk Hlive). by eapply create_repeat_live.
Qed.

Lemma handlePerform_cases id k w : perform_case id k w (handlePerform id k w).
Proof.
  destruct (transactions w !! k) as [row|] eqn:Hk; cycle 1.
  { rewrite (handlePerform_missing _ _ _ Hk). by constructor. }
  destruct (decide (Transactions.state row = 1 ∧
      expired_at (clock w (reads w)) (Transactions.create_time row))) as [[Hs He]|Hlive].
  { rewrite (handlePerform_expired _ _ _ _ Hk Hs He). by eapply perform_expired. }
  destruct (decide (cancelled_state (Transactions.state row))) as [Hc|Hc].
  { rewrite (handlePerform_cancelled _ _ _ _ Hk Hc). by eapply perform_cancelled. }
  destruct (decide (Transactions.state row = 2)) as [Hp|Hp].
  { rewrite (handlePerform_performed _ _ _ _ Hk Hp). by eapply perform_repeat. }
  unfold cancelled_state in Hc.
  rewrite (handlePerform_live _ _ _ _ Hk Hlive); [|lia..].
  eapply perform_first; try done.
Qed.

Lemma handleCancel_cases id k reason w :
  cancel_case id k reason w (handleCancel id k reason w).
Proof.
  destruct (transactions w !! k) as [row|] eqn:Hk; cycle 1.
  { rewrite (handleCancel_missing _ _ _ _ Hk). by constructor. }
  destruct (decide (Transactions.state row = 1 ∧
      expired_at (clock w (reads w)) (Transactions.create_time row))) as [[Hs He]|Hlive].
  { rewrite (handleCancel_expired _ _ _ _ _ Hk Hs He). by eapply cancel_expired. }
  destruct (decide (cancelled_state (Transactions.state row))) as [Hc|Hc].
  { rewrite (handleCancel_cancelled _ _ _ _ _ Hk Hc). by eapply cancel_repeat. }
  assert (Hc' := Hc). unfold cancelled_state in Hc'.
  rewrite (handleCancel_live _ _ _ _ _ Hk Hlive); [|lia..].
  eapply cancel_first; try done.
Qed.

Lemma handleCheck_cases id k w : check_case id k w (handleCheck id k w).
Proof.
  destruct (transactions w !! k) as [row|] eqn:Hk; cycle 1.
  { rewrite (handleCheck_missing _ _ _ Hk). by constructor. }
  destruct (decide (Transactions.state row = 1 ∧
      expired_at (clock w (reads w)) (Transactions.create_time row))) as [[Hs He]|Hlive].
  - rewrite (handleCheck_expired _ _ _ _ Hk Hs He). by eapply check_expired.
  - rewrite (handleCheck_live _ _ _ _ Hk Hlive). by eapply check_live.
Qed.

(* ------------------------------------------------------------------ *)
(** * Authentication and dispatch *)

Lemma substring_all s : String.substring 0 (String.length s) s = s.
Proof. induction s as [|c s IH]; simpl; [done|]. by rewrite IH. Qed.

Lemma prefix_split p s :
  String.prefix p s = true →
  s = (p +:+ String.substring (String.length p) (String.length s - String.length p) s)%string.
Proof.
  revert s. induction p as [|a p IH]; intros s H.
  - simpl. by rewrite Nat.sub_0_r, substring_all.
  - destruct s as [|c s]; [discriminate H|]. simpl in H.
    destruct (Ascii.ascii_dec a c) as [->|]; [|discriminate H].
    simpl String.length. simpl String.substring.
    change (String c s = String c (p +:+ String.substring (String.length p)
                                      (String.length s - String.length p) s)).
    f_equal. by apply IH.
Qed.

Lemma basic_prefix header :
  String.prefix "Basic " header = true →
  ∃ rest, header = ("Basic " +:+ rest)%string ∧ slice6 header = rest.
Proof. intros H. exists (slice6 header). split; [|done]. by apply (prefix_split "Basic "). Qed.

Lemma prefix_app p rest : String.prefix p (p +:+ rest) = true.
Proof.
  induction p as [|a p IH].
  - by destruct rest.
  - change (String.prefix (String a p) (String a (p +:+ rest)) = true). simpl.
    by destruct (Ascii.ascii_dec a a).
Qed.

Lemma basic_prefix_app rest : String.prefix "Basic " ("Basic " +:+ rest) = true.
Proof. apply prefix_app. Qed.

(** X1. A call is authenticated exactly when its Authorization header is
    Basic followed by text that decodes to Paycom:<secret key>; with no
    header, another scheme or other credentials the dispatcher answers
    with the authorization error, whatever the method, and leaves the
    world untouched. *)
Theorem authentication_gate (SECRET_KEY : string) (base64_utf8 : string → string)
    (authorization : option string) (id : Z) (c : Call) (w : World) :
  (requirePaymeAuth SECRET_KEY base64_utf8 authorization = true ↔
   ∃ rest, authorization = Some ("Basic " +:+ rest)%string ∧
           base64_utf8 rest = ("Paycom:" +:+ SECRET_KEY)%string) ∧
  (requirePaymeAuth SECRET_KEY base64_utf8 authorization = false →
   merchantHandler (request_of SECRET_KEY base64_utf8 authorization id c) w
     = (fail id ERR.AUTH, w)).
Proof.
  split.
  - unfold requirePaymeAuth. split.
    + destruct authorization as [header|]; simpl; [|done].
      destruct (String.prefix "Basic " header) eqn:Hp; simpl; [|done].
      destruct (basic_prefix header Hp) as (rest & -> & ->).
      intros Heq%String.eqb_eq. eauto.
    + intros (rest & -> & Hrest). simpl default.
      rewrite basic_prefix_app. simpl negb. cbv iota.
      destruct (basic_prefix _ (basic_prefix_app rest)) as (rest' & Heq & ->).
      apply String.eqb_eq.
      assert (rest' = rest) as -> by (by injection Heq).
      done.
  - intros Hno. unfold merchantHandler, request_of. simpl. by rewrite Hno.
Qed.

Lemma authentication_gate_witness :
  requirePaymeAuth "secret" demo_base64_utf8 (Some "Basic UGF5Y29tOnNlY3JldA=="%string)
    = true ∧
  merchantHandler
    (request_of "secret" demo_base64_utf8 (Some "Bearer UGF5Y29tOnNlY3JldA=="%string)
       7 (PerformTransaction "tx1")) Demo.created
    = (fail 7 ERR.AUTH, Demo.created) ∧
  merchantHandler (request_of "secret" demo_base64_utf8 None 7 (PerformTransaction "tx1"))
    Demo.created = (fail 7 ERR.AUTH, Demo.created).
Proof.
  split; [|split].
  - apply (authentication_gate "secret" demo_base64_utf8 _ 0 (OtherMethod "") Demo.created).
    exists "UGF5Y29tOnNlY3JldA=="%string. split; reflexivity.
  - apply (authentication_gate "secret" demo_base64_utf8). reflexivity.
  - apply (authentication_gate "secret" demo_base64_utf8). reflexivity.
Defined.

Lemma reply_id_create id donationId amount k w :
  reply_id (handleCreate id donationId amount k w).1 = id.
Proof. by destruct (handleCreate_cases id donationId amount k w). Qed.

Lemma reply_id_perform id k w : reply_id (handlePerform id k w).1 = id.
Proof. by destruct (handlePerform_cases id k w). Qed.

Lemma reply_id_cancel id k reason w : reply_id (handleCancel id k reason w).1 = id.
Proof. by destruct (handleCancel_cases id k reason w). Qed.

Lemma reply_id_check id k w : reply_id (handleCheck id k w).1 = id.
Proof. by destruct (handleCheck_cases id k w). Qed.

(** X2. Every reply of the dispatcher carries the id of the request it
    answers, on success and on every error. *)
Theorem reply_echoes_request_id (req : Request) (w : World) :
  reply_id (merchantHandler req w).1 = rpc_id req.
Proof.
  unfold merchantHandler. destruct (authorized req); simpl; [|done].
  destruct (call req); auto using reply_id_create, reply_id_perform,
    reply_id_cancel, reply_id_check.
  - exec. destruct (donations w !! account) as [d|]; [|done]. by destruct (negb _).
  - exec. destruct to as [v|]; [destruct (v =? 0)|]; done.
Qed.

Lemma inert_unchanged req w : inert req = true → (merchantHandler req w).2 = w.
Proof.
  unfold inert, merchantHandler. destruct (authorized req); simpl; [|done].
  destruct (call req) as [a m|a m k|k|k r|k|from to|m]; try done; intros H.
  - apply handleCheckPerform_unchanged.
  - destruct to as [v|]; [|done]. exec. destruct (v =? 0); [done|]. by destruct w.
Qed.

(** X3. Unauthenticated calls, CheckPerformTransaction, unknown methods and
    GetStatement with a non-zero [to] can be removed from any history of
    requests: the world reached is the same, tables and clock alike. *)
Theorem inert_calls_leave_no_trace (reqs : list Request) (w : World) :
  run reqs w = run (List.filter (λ req, negb (inert req)) reqs) w.
Proof.
  revert w. induction reqs as [|req reqs IH]; intros w; [done|].
  simpl List.filter. destruct (inert req) eqn:Hi; simpl negb; cbv iota.
  - rewrite run_cons, (inert_unchanged _ _ Hi). apply IH.
  - rewrite !run_cons. apply IH.
Qed.

(* ------------------------------------------------------------------ *)
(** * Invariants of the transactions table *)

Lemma row_step_cancelled_none clock k row new :
  row_step clock k (Some row) new →
  cancelled_state (Transactions.state row) → False.
Proof. unfold cancelled_state. inversion 1; subst; lia. Qed.

Lemma one_row_changed_final w w' k row :
  one_row_changed w w' →
  transactions w !! k = Some row →
  cancelled_state (Transactions.state row) →
  transactions w' !! k = Some row.
Proof.
  intros [_ [Heq | (k' & new & Hstep & Heq)]] Hk Hs; rewrite Heq; [done|].
  destruct (decide (k' = k)) as [->|Hne].
  - rewrite Hk in Hstep. by destruct (row_step_cancelled_none _ _ _ _ Hstep).
  - by rewrite lookup_insert_ne.
Qed.

(** X4. The cancelled states are final: once a row is in state -1 or -2,
    no sequence of requests changes any of its columns. *)
Theorem cancelled_rows_are_final (reqs : list Request) (w : World) (k : string)
    (row : Transactions.row) :
  transactions w !! k = Some row →
  cancelled_state (Transactions.state row) →
  transactions (run reqs w) !! k = Some row.
Proof.
  revert w. induction reqs as [|req reqs IH]; intros w Hk Hs; [done|].
  rewrite run_cons. apply IH; [|done].
  by apply (one_row_changed_final w _ k row (merchantHandler_one_row req w)).
Qed.

Lemma cancelled_rows_are_final_witness :
  transactions
    (run [Demo.rpc 3 (PerformTransaction "tx1");
          Demo.rpc 4 (CancelTransaction "tx1" (Some 9));
          Demo.rpc 5 (CreateTransaction "d1" 1000000 "tx1")] Demo.cancelled_before)
    !! "tx1"%string
  = Some (row_of_tx (cancelled 1700000000002 3 (tx_of_row "tx1" Demo.row1))).
Proof.
  apply cancelled_rows_are_final.
  - vm_compute. reflexivity.
  - left. reflexivity.
Defined.

Lemma row_step_known clock k o new : row_step clock k o new → known_state (Transactions.state new).
Proof.
  unfold known_state. destruct 1 as [| | |old n reason]; simpl; try lia.
  destruct (Transactions.state old =? 2); lia.
Qed.

Lemma one_row_changed_known w w' :
  one_row_changed w w' → states_known w → states_known w'.
Proof.
  intros [_ [Heq | (k' & new & Hstep & Heq)]] Hinv k row; rewrite Heq; [apply Hinv|].
  destruct (decide (k' = k)) as [->|Hne].
  - rewrite lookup_insert_eq. intros [= <-]. by apply row_step_known in Hstep.
  - rewrite lookup_insert_ne; [|done]. apply Hinv.
Qed.

(** X5. Only the four states are ever stored: if every row of the table is
    in state 1, 2, -1 or -2, as in the empty table, so is every row after
    any sequence of requests. *)
Theorem only_known_states (reqs : list Request) (w : World) :
  states_known w → states_known (run reqs w).
Proof.
  revert w. induction reqs as [|req reqs IH]; intros w Hinv; [done|].
  rewrite run_cons. apply IH.
  by apply (one_row_changed_known w _ (merchantHandler_one_row req w)).
Qed.

Lemma states_known_empty w : transactions w = ∅ → states_known w.
Proof. intros He k row. by rewrite He, lookup_empty. Qed.

Lemma only_known_states_witness :
  states_known
    (run [Demo.create_tx1; Demo.rpc 2 (PerformTransaction "tx1");
          Demo.rpc 3 (CancelTransaction "tx1" None)] (Demo.shop Demo.steady)).
Proof. apply only_known_states, states_known_empty. reflexivity. Defined.

Lemma row_step_cancel_marks clock k o new :
  (∀ n, clock n ≠ 0) →
  (∀ old, o = Some old →
     (Transactions.cancel_time old ≠ 0 ↔ cancelled_state (Transactions.state old)) ∧
     (is_Some (Transactions.reason old) ↔ cancelled_state (Transactions.state old))) →
  row_step clock k o new →
  (Transactions.cancel_time new ≠ 0 ↔ cancelled_state (Transactions.state new)) ∧
  (is_Some (Transactions.reason new) ↔ cancelled_state (Transactions.state new)).
Proof.
  intros Hclock Hold Hstep. unfold cancelled_state in *.
  destruct Hstep as [? ? n | old n Hs | old n H1 H2 H3 | old n reason H1 H2]; simpl.
  - split; [lia|]. split; [by intros [? [=]]|lia].
  - specialize (Hclock n). split; [lia|]. split; [lia|eauto].
  - destruct (Hold old eq_refl) as [Hct Hr]. split; [lia|].
    rewrite Hr. lia.
  - specialize (Hclock n). destruct (Transactions.state old =? 2).
    + split; [lia|]. split; [lia|eauto].
    + split; [lia|]. split; [lia|eauto].
Qed.

Lemma one_row_changed_cancel_marks w w' :
  (∀ n, clock w n ≠ 0) →
  one_row_changed w w' → cancel_marks w → cancel_marks w'.
Proof.
  intros Hclock [_ [Heq | (k' & new & Hstep & Heq)]] Hinv k row; rewrite Heq;
    [apply Hinv|].
  destruct (decide (k' = k)) as [->|Hne].
  - rewrite lookup_insert_eq. intros [= <-].
    apply (row_step_cancel_marks _ _ _ _ Hclock) in Hstep; [done|].
    intros old Hold. by apply (Hinv k).
  - rewrite lookup_insert_ne; [|done]. apply Hinv.
Qed.

(** X6. As long as the clock never reads 0, cancel_time is non-zero and
    reason is set in exactly the rows whose state is -1 or -2: the
    property passes from any table that has it, the empty one for
    instance, to the table after any sequence of requests. *)
Theorem cancel_marks_iff_cancelled (reqs : list Request) (w : World) :
  (∀ n, clock w n ≠ 0) → cancel_marks w → cancel_marks (run reqs w).
Proof.
  revert w. induction reqs as [|req reqs IH]; intros w Hclock Hinv; [done|].
  rewrite run_cons. pose proof (merchantHandler_one_row req w) as Hone.
  apply IH.
  - destruct Hone as [-> _]. done.
  - by apply (one_row_changed_cancel_marks w).
Qed.

Lemma cancel_marks_empty w : transactions w = ∅ → cancel_marks w.
Proof. intros He k row. by rewrite He, lookup_empty. Qed.

Lemma cancel_marks_iff_cancelled_witness :
  cancel_marks
    (run [Demo.create_tx1; Demo.rpc 2 (PerformTransaction "tx1");
          Demo.rpc 3 (CancelTransaction "tx1" None)] (Demo.shop Demo.steady)).
Proof.
  apply cancel_marks_iff_cancelled.
  - intros n. change (Demo.steady n ≠ 0). unfold Demo.steady. lia.
  - apply cancel_marks_empty. reflexivity.
Defined.

(* ------------------------------------------------------------------ *)
(** * The donations table under the merchant API *)

Lemma handleStatement_tables id from to w :
  same_tables w (handleStatement id from to w).2.
Proof. exec. destruct to as [v|]; [destruct (v =? 0)|]; done. Qed.

Lemma merchantHandler_one_donation req w :
  one_donation_changed w (merchantHandler req w).2.
Proof.
  unfold merchantHandler. destruct (authorized req); simpl; [|by left].
  destruct (call req) as [a m|a m k|k|k r|k|from to|m].
  - rewrite handleCheckPerform_unchanged. by left.
  - destruct (handleCreate_cases (rpc_id req) a m k w); try by left.
    right. exists a, 1. split; [unfold known_state; lia|done].
  - destruct (handlePerform_cases (rpc_id req) k w) as [| | | |row]; try by left.
    right. exists (Transactions.donation_id row), 2.
    split; [unfold known_state; lia|done].
  - destruct (handleCancel_cases (rpc_id req) k (default 0 r) w) as [| | |row];
      try by left.
    right. eexists (Transactions.donation_id row), _. split; [|done].
    unfold known_state. destruct (Transactions.state row =? 2); lia.
  - destruct (handleCheck_cases (rpc_id req) k w); by left.
  - left. apply handleStatement_tables.
  - by left.
Qed.

Lemma one_donation_changed_lookup w w' id :
  one_donation_changed w w' →
  match donations w !! id with
  | Some d =>
      ∃ d', donations w' !! id = Some d' ∧
        Donations.amount d' = Donations.amount d ∧
        Donations.created_at d' = Donations.created_at d ∧
        (Donations.state d' = Donations.state d ∨ known_state (Donations.state d'))
  | None => donations w' !! id = None
  end.
Proof.
  intros [Heq | (id' & s & Hs & Heq)]; rewrite Heq.
  - destruct (donations w !! id) as [d|]; [|done]. exists d. auto.
  - destruct (decide (id' = id)) as [->|Hne].
    + rewrite lookup_alter_eq. destruct (donations w !! id) as [d|]; simpl; [|done].
      eexists. split; [done|]. simpl. auto.
    + rewrite lookup_alter_ne; [|done].
      destruct (donations w !! id) as [d|]; [|done]. exists d. auto.
Qed.

(** X7. The merchant API neither adds nor removes a donation and never
    changes a donation's amount or created_at: after any sequence of
    requests an unknown donation id is still unknown, and a known one still
    has its amount and created_at, with its old state or one of 1, 2, -1,
    -2. *)
Theorem donations_are_fixed (reqs : list Request) (w : World) (id : string) :
  match donations w !! id with
  | Some d =>
      ∃ d', donations (run reqs w) !! id = Some d' ∧
        Donations.amount d' = Donations.amount d ∧
        Donations.created_at d' = Donations.created_at d ∧
        (Donations.state d' = Donations.state d ∨ known_state (Donations.state d'))
  | None => donations (run reqs w) !! id = None
  end.
Proof.
  revert w. induction reqs as [|req reqs IH]; intros w.
  - change (run [] w) with w.
    destruct (donations w !! id) as [d|]; [|done]. exists d. auto.
  - rewrite run_cons. specialize (IH (merchantHandler req w).2).
    pose proof (one_donation_changed_lookup w _ id (merchantHandler_one_donation req w))
      as Hstep.
    destruct (donations w !! id) as [d|].
    + destruct Hstep as (d1 & Hd1 & Ha1 & Hc1 & Hs1). rewrite Hd1 in IH.
      destruct IH as (d2 & Hd2 & Ha2 & Hc2 & Hs2).
      exists d2. split; [done|]. split; [congruence|]. split; [congruence|].
      destruct Hs2 as [Hs2|Hs2]; [|by right].
      rewrite Hs2. destruct Hs1; auto.
    + by rewrite Hstep in IH.
Qed.

Lemma rows_match_stored k tx w :
  rows_match_donations w →
  (∃ d, donations w !! Tx.account tx = Some d ∧ Donations.amount d = Tx.amount tx) →
  rows_match_donations (stored k tx w).
Proof.
  intros Hinv Htx k' row'. unfold stored. simpl.
  destruct (decide (k = k')) as [->|Hne].
  - rewrite lookup_insert_eq. intros [= <-]. done.
  - rewrite lookup_insert_ne; [|done]. apply Hinv.
Qed.

Lemma rows_match_tick w : rows_match_donations w → rows_match_donations (tick w).
Proof. done. Qed.

Lemma rows_match_alter s id w :
  rows_match_donations w →
  rows_match_donations
    (with_donations (alter (Donations.set_state s) id (donations w)) w).
Proof.
  intros Hinv k row Hk. simpl in *.
  destruct (Hinv k row Hk) as (d & Hd & Ha).
  destruct (decide (id = Transactions.donation_id row)) as [->|Hne].
  - exists (Donations.set_state s d). by rewrite lookup_alter_eq, Hd.
  - exists d. by rewrite lookup_alter_ne.
Qed.

Lemma rows_match_step req w :
  rows_match_donations w → rows_match_donations (merchantHandler req w).2.
Proof.
  intros Hinv. unfold merchantHandler. destruct (authorized req); simpl; [|done].
  assert (Hexp : ∀ k row t, transactions w !! k = Some row →
            rows_match_donations
              (stored k (auto_cancelled t (tx_of_row k row)) (tick (tick w)))).
  { intros k row t Hk. apply rows_match_stored; [done|]. apply (Hinv k row Hk). }
  destruct (call req) as [a m|a m k|k|k r|k|from to|m].
  - by rewrite handleCheckPerform_unchanged.
  - destruct (handleCreate_cases (rpc_id req) a m k w) as [| | | | | |d Hd Ha];
      simpl; eauto.
    apply (rows_match_alter 1 a (stored k _ (tick w))).
    apply rows_match_stored; [done|]. simpl. eauto.
  - destruct (handlePerform_cases (rpc_id req) k w) as [| | | |row Hk]; simpl; eauto.
    apply (rows_match_alter 2 _ (stored k _ (tick (tick w)))).
    apply rows_match_stored; [done|]. apply (Hinv k row Hk).
  - destruct (handleCancel_cases (rpc_id req) k (default 0 r) w) as [| | |row Hk];
      simpl; eauto.
    apply (rows_match_alter _ _ (stored k _ (tick (tick w)))).
    apply rows_match_stored; [done|]. apply (Hinv k row Hk).
  - destruct (handleCheck_cases (rpc_id req) k w); simpl; eauto.
  - intros k row. destruct (handleStatement_tables (rpc_id req) from to w) as [-> ->].
    apply Hinv.
  - done.
Qed.

(** X8. Every stored transaction refers to a stored donation and carries
    that donation's amount: the property passes from any world that has
    it, one without transactions for instance, to the world after any
    sequence of requests. *)
Theorem transactions_match_their_donation (reqs : list Request) (w : World) :
  rows_match_donations w → rows_match_donations (run reqs w).
Proof.
  revert w. induction reqs as [|req reqs IH]; intros w Hinv; [done|].
  rewrite run_cons. by apply IH, rows_match_step.
Qed.

Lemma rows_match_empty w : transactions w = ∅ → rows_match_donations w.
Proof. intros He k row. by rewrite He, lookup_empty. Qed.

Lemma transactions_match_their_donation_witness :
  rows_match_donations
    (run [Demo.create_tx1; Demo.rpc 2 (CreateTransaction "d1" 1000000 "tx2");
          Demo.rpc 3 (PerformTransaction "tx2");
          Demo.rpc 4 (CancelTransaction "tx1" None)] (Demo.shop Demo.steady)).
Proof. apply transactions_match_their_donation, rows_match_empty. reflexivity. Defined.

(* ------------------------------------------------------------------ *)
(** * The store helpers *)




(* ------------------------------------------------------------------ *)
(** * How the calls compose *)



Lemma snapshot_of_stored k tx w :
  Tx.paycomTxId tx = k →
  ∃ row, transactions (stored k tx w) !! Snapshot.transaction (txResponse tx) = Some row ∧
    txResponse tx = txResponse (tx_of_row (Snapshot.transaction (txResponse tx)) row).
Proof.
  intros <-. exists (row_of_tx tx). simpl. rewrite lookup_insert_eq.
  split; [done|]. by destruct tx.
Qed.

Lemma snapshot_of_row k row w :
  transactions w !! k = Some row →
  ∃ row', transactions w !! Snapshot.transaction (txResponse (tx_of_row k row)) = Some row' ∧
    txResponse (tx_of_row k row)
    = txResponse (tx_of_row (Snapshot.transaction (txResponse (tx_of_row k row))) row').
Proof. intros Hk. exists row. done. Qed.

(** X12. Whenever the dispatcher answers with a transaction snapshot, the
    snapshot is that of the row stored, once the call is over, under the
    external id the snapshot names. *)
Theorem reply_matches_store (req : Request) (w : World) (id : Z)
    (snapshot : Snapshot.t) :
  (merchantHandler req w).1 = ok id (Transaction snapshot) →
  ∃ row,
    transactions (merchantHandler req w).2 !! Snapshot.transaction snapshot = Some row ∧
    snapshot = txResponse (tx_of_row (Snapshot.transaction snapshot) row).
Proof.
  unfold merchantHandler. destruct (authorized req); simpl; [|done].
  destruct (call req) as [a m|a m k|k|k r|k|from to|m].
  - exec. destruct (donations w !! a) as [d|]; [|done]. by destruct (negb _).
  - destruct (handleCreate_cases (rpc_id req) a m k w); simpl; intros [= <- <-];
      first [ by apply snapshot_of_stored | by apply (snapshot_of_row k) ].
  - destruct (handlePerform_cases (rpc_id req) k w); simpl; intros [= <- <-];
      first [ by apply snapshot_of_stored | by apply (snapshot_of_row k) ].
  - destruct (handleCancel_cases (rpc_id req) k (default 0 r) w); simpl;
      intros [= <- <-];
      first [ by apply snapshot_of_stored | by apply (snapshot_of_row k) ].
  - destruct (handleCheck_cases (rpc_id req) k w); simpl; intros [= <- <-];
      first [ by apply snapshot_of_stored | by apply (snapshot_of_row k) ].
  - exec. destruct to as [v|]; [destruct (v =? 0)|]; done.
  - done.
Qed.

Lemma reply_matches_store_witness :
  ∃ row,
    transactions (merchantHandler (Demo.rpc 2 (PerformTransaction "tx1")) Demo.created).2
      !! "tx1"%string = Some row ∧
    Transactions.state row = 2.
Proof.
  destruct (reply_matches_store (Demo.rpc 2 (PerformTransaction "tx1")) Demo.created 2
              (txResponse (performed 1700000000002 (tx_of_row "tx1" Demo.row1))))
    as (row & Hk & Hsnap).
  - vm_compute. reflexivity.
  - exists row. split; [exact Hk|].
    apply (f_equal Snapshot.state) in Hsnap. simpl in Hsnap. congruence.
Defined.

(** X13. PerformTransaction never looks at the donations: its reply and
    the transactions table it leaves are the same whatever the donations
    table holds, so that a Created transaction is performed even when its
    donation is already Paid. *)
Theorem perform_ignores_donations (id : Z) (k : string) (w : World)
    (ds : gmap string Donations.row) :
  (handlePerform id k (with_donations ds w)).1 = (handlePerform id k w).1 ∧
  transactions (handlePerform id k (with_donations ds w)).2
    = transactions (handlePerform id k w).2.
Proof.
  set (w2 := with_donations ds w).
  destruct (handlePerform_cases id k w) as
    [Hk|row Hk Hs He|row Hk Hs|row Hk Hs|row Hk Hlive Hc Hs].
  - by rewrite (handlePerform_missing id k w2 Hk).
  - by rewrite (handlePerform_expired id k row w2 Hk Hs He).
  - by rewrite (handlePerform_cancelled id k row w2 Hk Hs).
  - by rewrite (handlePerform_performed id k row w2 Hk Hs).
  - unfold cancelled_state in Hc.
    rewrite (handlePerform_live id k row w2 Hk Hlive); [done|lia..].
Qed.



(** X15. A transaction row appears only through CreateTransaction: if an
    external id is not stored before a call and is stored after it, the
    call was an authenticated CreateTransaction for that id whose donation
    is known, has the requested amount and is not Paid; the new row is in
    state 1 with the clock reading as create_time and no perform_time,
    cancel_time or reason, and the donation is put in state 1. *)
Theorem rows_appear_only_by_create (req : Request) (w : World) (k : string) :
  transactions w !! k = None →
  is_Some (transactions (merchantHandler req w).2 !! k) →
  authorized req = true ∧
  ∃ donationId amount d,
    call req = CreateTransaction donationId amount k ∧
    donations w !! donationId = Some d ∧
    Donations.amount d = amount ∧
    Donations.state d ≠ 2 ∧
    transactions (merchantHandler req w).2 !! k =
      Some {| Transactions.donation_id := donationId;
              Transactions.amount := amount;
              Transactions.state := 1;
              Transactions.create_time := clock w (reads w);
              Transactions.perform_time := 0;
              Transactions.cancel_time := 0;
              Transactions.reason := None |} ∧
    donations (merchantHandler req w).2 !! donationId = Some (Donations.set_state 1 d).
Proof.
  intros Hk. unfold merchantHandler.
  destruct (authorized req); simpl; [|rewrite Hk; by intros [? [=]]].
  intros Hnew. split; [done|].
  assert (Hkeep : ∀ k' row',
            is_Some (transactions w !! k') →
            is_Some (<[k' := row']> (transactions w) !! k) → False).
  { intros k' row' Hsome.
    destruct (decide (k' = k)) as [->|Hne].
    - rewrite Hk in Hsome. by destruct Hsome.
    - rewrite lookup_insert_ne, Hk; [|done]. by intros [? [=]]. }
  assert (Hnone : ¬ is_Some (transactions w !! k)) by (rewrite Hk; by intros [? [=]]).
  destruct (call req) as [a m|a m k'|k'|k' r|k'|from to|m].
  - by rewrite handleCheckPerform_unchanged in Hnew.
  - destruct (handleCreate_cases (rpc_id req) a m k' w)
      as [| | | |d row ? ? ? Hk'|d row|d Hd Ha Hs Hk']; simpl in Hnew; try done.
    + exfalso. eapply Hkeep; [|exact Hnew]; by rewrite Hk'.
    + destruct (decide (k' = k)) as [->|Hne].
      * exists a, m, d. repeat split; try done.
        -- simpl. by rewrite lookup_insert_eq.
        -- simpl. by rewrite lookup_alter_eq, Hd.
      * rewrite lookup_insert_ne, Hk in Hnew; [|done]. by destruct Hnew.
  - destruct (handlePerform_cases (rpc_id req) k' w) as [|row Hk'| | |row Hk'];
      simpl in Hnew; try done.
    + exfalso. eapply Hkeep; [|exact Hnew]; by rewrite Hk'.
    + exfalso. eapply Hkeep; [|exact Hnew]; by rewrite Hk'.
  - destruct (handleCancel_cases (rpc_id req) k' (default 0 r) w)
      as [|row Hk'| |row Hk']; simpl in Hnew; try done.
    + exfalso. eapply Hkeep; [|exact Hnew]; by rewrite Hk'.
    + exfalso. eapply Hkeep; [|exact Hnew]; by rewrite Hk'.
  - destruct (handleCheck_cases (rpc_id req) k' w) as [|row Hk'|];
      simpl in Hnew; try done.
    exfalso. eapply Hkeep; [|exact Hnew]; by rewrite Hk'.
  - destruct (handleStatement_tables (rpc_id req) from to w) as [Ht _].
    by rewrite Ht in Hnew.
  - done.
Qed.

Lemma rows_appear_only_by_create_witness :
  authorized Demo.create_tx1 = true ∧
  transactions (merchantHandler Demo.create_tx1 (Demo.shop Demo.steady)).2 !! "tx1"%string
    = Some Demo.row1.
Proof.
  destruct (rows_appear_only_by_create Demo.create_tx1 (Demo.shop Demo.steady) "tx1")
    as (Hauth & a & m & d & Hcall & _ & _ & _ & Hrow & _).
  - reflexivity.
  - vm_compute. eauto.
  - split; [exact Hauth|]. rewrite Hrow. injection Hcall as <- <-. reflexivity.
Defined.



(* ------------------------------------------------------------------ *)
(** * GetStatement at the edges *)




(* ------------------------------------------------------------------ *)
(** * Paid donations *)

Lemma alter_state_2 s id' id (ds : gmap string Donations.row) d' :
  alter (Donations.set_state s) id' ds !! id = Some d' →
  Donations.state d' = 2 →
  (∃ d, ds !! id = Some d ∧ Donations.state d = 2) ∨ (id' = id ∧ s = 2).
Proof.
  destruct (decide (id' = id)) as [->|Hne].
  - rewrite lookup_alter_eq. destruct (ds !! id) as [d|]; simpl; [|done].
    intros [= <-]. simpl. auto.
  - rewrite lookup_alter_ne; [|done]. eauto.
Qed.

Lemma newly_paid req w id d' :
  donations (merchantHandler req w).2 !! id = Some d' →
  Donations.state d' = 2 →
  (∃ d, donations w !! id = Some d ∧ Donations.state d = 2) ∨
  (∃ k row', transactions (merchantHandler req w).2 !! k = Some row' ∧
     Transactions.donation_id row' = id ∧ Transactions.state row' = 2).
Proof.
  unfold merchantHandler. destruct (authorized req); simpl; [|eauto].
  destruct (call req) as [a m|a m k|k|k r|k|from to|m].
  - rewrite handleCheckPerform_unchanged. eauto.
  - destruct (handleCreate_cases (rpc_id req) a m k w); simpl; eauto.
    intros Hd' Hs'. destruct (alter_state_2 _ _ _ _ _ Hd' Hs') as [?|[_ ?]]; [eauto|lia].
  - destruct (handlePerform_cases (rpc_id req) k w) as [| | | |row Hk]; simpl; eauto.
    intros Hd' Hs'. destruct (alter_state_2 _ _ _ _ _ Hd' Hs') as [?|[<- _]]; [eauto|].
    right. eexists k, _. rewrite lookup_insert_eq. done.
  - destruct (handleCancel_cases (rpc_id req) k (default 0 r) w) as [| | |row Hk];
      simpl; eauto.
    intros Hd' Hs'. destruct (alter_state_2 _ _ _ _ _ Hd' Hs') as [?|[_ ?]]; [eauto|].
    destruct (Transactions.state row =? 2); lia.
  - destruct (handleCheck_cases (rpc_id req) k w); simpl; eauto.
  - destruct (handleStatement_tables (rpc_id req) from to w) as [_ ->]. eauto.
  - eauto.
Qed.

Lemma performed_row_stays w w' k row :
  one_row_changed w w' →
  transactions w !! k = Some row →
  Transactions.state row = 2 ∨ Transactions.state row = -2 →
  ∃ row', transactions w' !! k = Some row' ∧
    Transactions.donation_id row' = Transactions.donation_id row ∧
    (Transactions.state row' = 2 ∨ Transactions.state row' = -2).
Proof.
  intros Hone Hk Hs.
  destruct (one_row_changed_performed w w' k row Hone Hk Hs) as (row' & Hk' & _ & Hs').
  destruct (one_row_changed_identity w w' k row Hone Hk) as (row'' & Hk'' & Hd & _).
  exists row'. split; [done|]. split; [|done]. congruence.
Qed.

(** X18. A donation is never Paid without a performed transaction: if
    every donation in state 2 has a transaction in state 2 or -2, as when
    no donation is Paid yet, then the same holds after any sequence of
    requests. *)
Theorem paid_donation_has_performed_transaction (reqs : list Request) (w : World) :
  paid_is_backed w → paid_is_backed (run reqs w).
Proof.
  revert w. induction reqs as [|req reqs IH]; intros w Hinv; [done|].
  rewrite run_cons. apply IH. intros id d' Hd' Hs'.
  destruct (newly_paid req w id d' Hd' Hs') as [(d & Hd & Hs)|(k & row' & Hk & Hid & Hst)].
  - destruct (Hinv id d Hd Hs) as (k & row & Hk & Hid & Hst).
    destruct (performed_row_stays w _ k row (merchantHandler_one_row req w) Hk Hst)
      as (row' & Hk' & Hid' & Hst').
    exists k, row'. split; [done|]. split; [congruence|done].
  - exists k, row'. auto.
Qed.

Lemma paid_is_backed_unpaid w :
  map_Forall (λ _ d, Donations.state d ≠ 2) (donations w) → paid_is_backed w.
Proof. intros Hall id d Hd Hs. by destruct (Hall id d Hd). Qed.

Lemma paid_donation_has_performed_transaction_witness :
  paid_is_backed
    (run [Demo.create_tx1; Demo.rpc 2 (PerformTransaction "tx1")] (Demo.shop Demo.steady)).
Proof.
  apply paid_donation_has_performed_transaction, paid_is_backed_unpaid.
  change (donations (Demo.shop Demo.steady))
    with (<["d1"%string := {| Donations.amount := 1000000; Donations.state := 0;
                              Donations.created_at := 1699999999000 |}]>
            (∅ : gmap string Donations.row)).
  apply map_Forall_insert_2; [simpl; lia | apply map_Forall_empty].
Defined.
